(** * Batch LP harness (main.cc): orchestration, statistics and persistence

    A shallow embedding of [src/main.cc].  The program loads a batch of
    linear programs from a JSON file, hands them to a solving backend
    (concurrent or sequential), folds the returned solutions into a
    [SolverStatistics] record, appends the successful answers to a text
    file and prints a report.

    Conventions of the embedding:
    - [double] is IEEE binary64, i.e. Rocq's primitive [float];
    - [size_t] is [N] with the wrap-around of [++] written out;
    - [int] is [Z] (the only [int] arithmetic is the range check of
      [std::stoi]);
    - C++ exceptions, [assert] and the process exit are explicit in the
      result types [outcome] and [exit_status];
    - the file system, the two output streams and a log of the backend
      calls and file openings form the [world] that every effectful
      function threads through;
    - what [main.cc] takes from other files ([json.hpp], the two solver
      headers) is a parameter of the harness or is modelled from the
      specification, and says so. *)

From Stdlib Require Import ZArith NArith Ascii String List Floats Lia Bool.
From stdpp Require Import base option gmap strings.
Import ListNotations.

Local Open Scope string_scope.
Local Open Scope Z_scope.
Set Warnings "-register-all".

(** ** Machine numbers *)

(** [n++] on a [size_t]. *)
Definition size_t_incr (n : N) : N := ((n + 1) mod 2 ^ 64)%N.

(** [v.size()] of a [std::vector].  A vector never holds more than
    [max_size()] elements, which is below [2^64]; lists that model vectors
    are therefore qualified by [fits_size_t] where the bound matters. *)
Definition size {A : Type} (v : list A) : N := N.of_nat (length v).

Definition fits_size_t {A : Type} (v : list A) : Prop :=
  (N.of_nat (length v) < 2 ^ 64)%N.

(** Conversion of an integer to [double], rounding to nearest even: this is
    what [double = long long] and [double / size_t] perform. *)
Definition double_of_Z (z : Z) : float :=
  SF2Prim (binary_normalize prec emax z 0 false).

Definition double_of_size_t (n : N) : float := double_of_Z (Z.of_N n).

(** A [double] that is an infinity or a NaN. *)
Definition non_finite (d : float) : bool :=
  match Prim2SF d with
  | S754_nan | S754_infinity _ => true
  | S754_zero _ | S754_finite _ _ _ => false
  end.

(** ** Exceptions and outcomes *)

(** The exception classes the program meets; all of them derive from
    [std::exception], so [what] is what the handler of [main] prints. *)
Inductive exn : Type :=
| runtime_error (msg : string)
| json_exception (msg : string)
| invalid_argument (msg : string)
| out_of_range (msg : string)
| backend_exception (msg : string).

Definition what (e : exn) : string :=
  match e with
  | runtime_error m | json_exception m | invalid_argument m
  | out_of_range m | backend_exception m => m
  end.

(** How a call ends: it returns, it throws, or a failed [assert] aborts the
    process. *)
Inductive outcome (A : Type) : Type :=
| Returned (a : A)
| Thrown (e : exn)
| Aborted.
Arguments Returned {A} a.
Arguments Thrown {A} e.
Arguments Aborted {A}.

Definition obind {A B : Type} (o : outcome A) (k : A -> outcome B) : outcome B :=
  match o with
  | Returned a => k a
  | Thrown e => Thrown e
  | Aborted => Aborted
  end.

Declare Scope lp_scope.
Delimit Scope lp_scope with lp.
Notation "x <~ c ;; k" := (obind c (fun x => k))
  (at level 100, c at next level, right associativity) : lp_scope.

(** ** Data model *)

(** [using LP_Problem = std::tuple<...>]: c, A, b, Aeq, beq, lb, ub and the
    maximization flag. *)
Definition LP_Problem : Type :=
  (list float * list (list float) * list float * list (list float) *
   list float * list float * list float * bool)%type.

(** Modelled from the spec: the solution record of the solving backend
    ([paraSim] and [paraSim_threadp] are not part of the sources).  The
    fields are the ones [main.cc] reads; [iterations] and [total_time_ms]
    hold the value as converted to [double] by [+=] on a [double]
    accumulator, [get_data_string] the text the serialization method
    returns. *)
Record LP_solution : Type := mkSolution {
  exitflag : Z;
  iterations : float;
  total_time_ms : float;
  get_data_string : string
}.

Record SolverStatistics : Type := mkStats {
  total_problems : N;
  success_count : N;
  fail_count : N;
  total_iterations : float;
  total_solve_time_ms : float;
  wall_clock_time_ms : float
}.

(** Default member initializers of [SolverStatistics]. *)
Definition stats0 : SolverStatistics := mkStats 0 0 0 0 0 0.

(** ** The world *)

(** Formatting state of a stream for floating-point output. *)
Record fmtflags : Type := mkFlags {
  fixed : bool;
  precision : Z
}.

(** State of a freshly initialised stream: general notation, precision 6. *)
Definition default_flags : fmtflags := mkFlags false 6.

(** One value as it reaches a stream; a [double] is rendered under the
    flags in force when it is inserted. *)
Inductive item : Type :=
| Str (s : string)
| Size (n : N)
| Int (z : Z)
| Dbl (flags : fmtflags) (d : float).

(** One right operand of [<<]. *)
Inductive operand : Type :=
| put_str (s : string)
| put_size (n : N)
| put_int (z : Z)
| put_double (d : float)
| std_fixed
| std_setprecision (n : Z).

(** What the process does to its surroundings besides reading its input and
    printing: calls of the solving backends and attempts to open a file for
    appending. *)
Inductive event : Type :=
| BatchCall (threads : Z) (problems : list LP_Problem)
| SingleCall (problem : LP_Problem)
| OpenAppend (path : string) (opened : bool).

Record world : Type := mkWorld {
  files : gmap string string;      (* path -> content *)
  unreadable : gset string;        (* paths that cannot be opened for reading *)
  unwritable : gset string;        (* paths that cannot be opened for appending *)
  events : list event;
  cout : list item;
  cout_flags : fmtflags;
  cerr : list item
}.

Definition set_files (f : gmap string string) (w : world) : world :=
  mkWorld f (unreadable w) (unwritable w) (events w)
          (cout w) (cout_flags w) (cerr w).

Definition with_events (evs : list event) (w : world) : world :=
  mkWorld (files w) (unreadable w) (unwritable w) (events w ++ evs)
          (cout w) (cout_flags w) (cerr w).

(** Effectful computations: state passing over [world], with [outcome]. *)
Definition M (A : Type) : Type := world -> outcome A * world.

Definition ret {A : Type} (a : A) : M A := fun w => (Returned a, w).

Definition bind {A B : Type} (c : M A) (k : A -> M B) : M B :=
  fun w =>
    match c w with
    | (Returned a, w') => k a w'
    | (Thrown e, w') => (Thrown e, w')
    | (Aborted, w') => (Aborted, w')
    end.

Notation "x <- c ;; k" := (bind c (fun x => k))
  (at level 100, c at next level, right associativity) : lp_scope.

Definition lift {A : Type} (o : outcome A) : M A := fun w => (o, w).

(** [assert(cond)]. *)
Definition assert (cond : bool) : M unit :=
  fun w => if cond then (Returned tt, w) else (Aborted, w).

Definition nl : string := String (ascii_of_nat 10) EmptyString.

(** [stream << op1 << op2 << ...]: the operands take effect from left to
    right on the buffer and the flags. *)
Fixpoint insert_all (ops : list operand) (buf : list item) (flags : fmtflags)
  : list item * fmtflags :=
  match ops with
  | [] => (buf, flags)
  | put_str s :: ops' => insert_all ops' (buf ++ [Str s]) flags
  | put_size n :: ops' => insert_all ops' (buf ++ [Size n]) flags
  | put_int z :: ops' => insert_all ops' (buf ++ [Int z]) flags
  | put_double d :: ops' => insert_all ops' (buf ++ [Dbl flags d]) flags
  | std_fixed :: ops' => insert_all ops' buf (mkFlags true (precision flags))
  | std_setprecision n :: ops' => insert_all ops' buf (mkFlags (fixed flags) n)
  end.

Definition cout_put (ops : list operand) : M unit :=
  fun w =>
    let '(buf, flags) := insert_all ops (cout w) (cout_flags w) in
    (Returned tt,
     mkWorld (files w) (unreadable w) (unwritable w) (events w)
             buf flags (cerr w)).

(** [std::cerr << s1 << s2 << ...]; the program only sends text there. *)
Definition cerr_put (texts : list string) : M unit :=
  fun w => (Returned tt,
            mkWorld (files w) (unreadable w) (unwritable w) (events w)
                    (cout w) (cout_flags w) (cerr w ++ map Str texts)).

(** *** File streams *)

(** [std::ifstream file(filename)] followed by [file.is_open()]: the content
    when the file exists and may be read. *)
Definition ifstream_open (filename : string) (w : world) : option string :=
  if decide (filename ∈ unreadable w) then None else files w !! filename.

Record ofstream : Type := mkOfstream {
  of_path : string;
  is_open : bool
}.

Definition openable_for_append (path : string) (w : world) : bool :=
  bool_decide (path ∉ unwritable w).

(** [std::ofstream out_file(path, std::ios::app)]: a missing file is created
    empty, an existing one keeps its content; when the opening fails the
    stream is left closed. *)
Definition ofstream_open_app (path : string) : M ofstream :=
  fun w =>
    if openable_for_append path w then
      (Returned (mkOfstream path true),
       set_files (<[path := default "" (files w !! path)]> (files w))
                 (with_events [OpenAppend path true] w))
    else (Returned (mkOfstream path false), with_events [OpenAppend path false] w).

(** [out_file << s]: in append mode the text goes to the end of the file; a
    stream that is not open drops it. *)
Definition ofstream_write (out_file : ofstream) (s : string) : M unit :=
  fun w =>
    if is_open out_file then
      (Returned tt,
       set_files (<[of_path out_file :=
                      default "" (files w !! of_path out_file) +:+ s]> (files w)) w)
    else (Returned tt, w).

Definition ofstream_close (out_file : ofstream) : M unit := ret tt.

(** ** JSON values *)

(** Modelled from the spec: [json.hpp] is not part of the sources.  The
    value type and the accessors used by [read_problems_from_file] follow
    sections 4.1 and 6 of the specification: a batch is a sequence of
    records; [c], [A] and [b] are mandatory and their absence is a parse
    error; [Aeq], [beq], [lb], [ub] and [ismaximization] are optional. *)
Inductive json : Type :=
| JNull
| JBool (b : bool)
| JNumber (d : float)
| JString (s : string)
| JArray (elems : list json)
| JObject (members : list (string * json)).

Fixpoint assoc (key : string) (members : list (string * json)) : option json :=
  match members with
  | [] => None
  | (k, v) :: rest => if String.eqb k key then Some v else assoc key rest
  end.

(** Modelled from the spec: [for (const auto& problem_json : j)], the
    sequence of records of a batch. *)
Definition json_elements (j : json) : outcome (list json) :=
  match j with
  | JArray elems => Returned elems
  | _ => Thrown (json_exception "batch is not an array of records")
  end.

(** Modelled from the spec: [problem_json[key]] for a mandatory key; a
    record without it is a parse error. *)
Definition json_at (record : json) (key : string) : outcome json :=
  match record with
  | JObject members =>
      match assoc key members with
      | Some v => Returned v
      | None => Thrown (json_exception ("missing required field: " +:+ key))
      end
  | _ => Thrown (json_exception "record is not an object")
  end.

(** Modelled from the spec: conversion of a JSON value to [double]. *)
Definition get_double (j : json) : outcome float :=
  match j with
  | JNumber d => Returned d
  | _ => Thrown (json_exception "type must be number")
  end.

Fixpoint traverse {A B : Type} (f : A -> outcome B) (l : list A) : outcome (list B) :=
  match l with
  | [] => Returned []
  | a :: l' => (b <~ f a ;; bs <~ traverse f l' ;; Returned (b :: bs))%lp
  end.

(** Modelled from the spec: conversion to [std::vector<double>]. *)
Definition get_vector (j : json) : outcome (list float) :=
  match j with
  | JArray elems => traverse get_double elems
  | _ => Thrown (json_exception "type must be array")
  end.

(** Modelled from the spec: conversion to [std::vector<std::vector<double>>]. *)
Definition get_matrix (j : json) : outcome (list (list float)) :=
  match j with
  | JArray rows => traverse get_vector rows
  | _ => Thrown (json_exception "type must be array")
  end.

(** Modelled from the spec: conversion to [bool]. *)
Definition get_bool (j : json) : outcome bool :=
  match j with
  | JBool b => Returned b
  | _ => Thrown (json_exception "type must be boolean")
  end.

(** Modelled from the spec: [problem_json.value(key, default_value)] for an
    optional key. *)
Definition json_value {A : Type} (record : json) (key : string)
    (get : json -> outcome A) (default_value : A) : outcome A :=
  match record with
  | JObject members =>
      match assoc key members with
      | Some v => get v
      | None => Returned default_value
      end
  | _ => Thrown (json_exception "record is not an object")
  end.

(** A record that lacks one of the mandatory fields. *)
Definition lacks_mandatory (record : json) : Prop :=
  match record with
  | JObject members =>
      assoc "c" members = None \/ assoc "A" members = None \/ assoc "b" members = None
  | _ => False
  end.

(** ** Problem Loader *)

(** Body of the loop of [read_problems_from_file]. *)
Definition load_problem (problem_json : json) : outcome LP_Problem :=
  (c <~ (v <~ json_at problem_json "c" ;; get_vector v) ;;
   A <~ (v <~ json_at problem_json "A" ;; get_matrix v) ;;
   b <~ (v <~ json_at problem_json "b" ;; get_vector v) ;;
   Aeq <~ json_value problem_json "Aeq" get_matrix [] ;;
   beq <~ json_value problem_json "beq" get_vector [] ;;
   lb <~ json_value problem_json "lb" get_vector [] ;;
   ub <~ json_value problem_json "ub" get_vector [] ;;
   is_maximization <~ json_value problem_json "ismaximization" get_bool false ;;
   Returned (c, A, b, Aeq, beq, lb, ub, is_maximization))%lp.

Fixpoint load_problems (records : list json) (problems : list LP_Problem)
  : outcome (list LP_Problem) :=
  match records with
  | [] => Returned problems
  | problem_json :: rest =>
      (p <~ load_problem problem_json ;; load_problems rest (problems ++ [p]))%lp
  end.

(** ** [std::stoi] *)

Definition INT_MIN : Z := - 2 ^ 31.
Definition INT_MAX : Z := 2 ^ 31 - 1.

Definition isspace (c : ascii) : bool :=
  let n := Z.of_nat (nat_of_ascii c) in
  (n =? 32) || ((9 <=? n) && (n <=? 13)).

Definition digit_of (c : ascii) : option Z :=
  let n := Z.of_nat (nat_of_ascii c) in
  if (48 <=? n) && (n <=? 57) then Some (n - 48) else None.

Fixpoint skip_spaces (s : string) : string :=
  match s with
  | String c s' => if isspace c then skip_spaces s' else s
  | EmptyString => s
  end.

(** Value of the longest prefix of decimal digits, continuing from [acc]. *)
Fixpoint read_digits (s : string) (acc : Z) : Z :=
  match s with
  | String c s' =>
      match digit_of c with
      | Some d => read_digits s' (10 * acc + d)
      | None => acc
      end
  | EmptyString => acc
  end.

Definition starts_with_digit (s : string) : bool :=
  match s with
  | String c _ => match digit_of c with Some _ => true | None => false end
  | EmptyString => false
  end.

(** [std::stoi(str)] in base 10: leading white space, an optional sign, then
    digits; text after the digits is ignored.  No digit at all is
    [std::invalid_argument]; a value outside [int] is [std::out_of_range]. *)
Definition stoi (str : string) : outcome Z :=
  let s := skip_spaces str in
  let '(negative, s) :=
    match s with
    | String "-" s' => (true, s')
    | String "+" s' => (false, s')
    | _ => (false, s)
    end in
  if starts_with_digit s then
    let magnitude := read_digits s 0 in
    let v := if negative then - magnitude else magnitude in
    if (INT_MIN <=? v) && (v <=? INT_MAX) then Returned v
    else Thrown (out_of_range "stoi")
  else Thrown (invalid_argument "stoi").

(** ** The program *)

Definition answer_parallel : string := "answer_parallel.txt".
Definition answer_serial : string := "answer_serial.txt".

(** Body of the aggregation loop on the counters: what one solution does to
    the statistics. *)
Definition account (stats : SolverStatistics) (result : LP_solution)
  : SolverStatistics :=
  let stats :=
    if exitflag result =? 1 then
      mkStats (total_problems stats) (size_t_incr (success_count stats))
              (fail_count stats) (total_iterations stats)
              (total_solve_time_ms stats) (wall_clock_time_ms stats)
    else
      mkStats (total_problems stats) (success_count stats)
              (size_t_incr (fail_count stats)) (total_iterations stats)
              (total_solve_time_ms stats) (wall_clock_time_ms stats) in
  let stats :=
    mkStats (total_problems stats) (success_count stats) (fail_count stats)
            (total_iterations stats + iterations result)%float
            (total_solve_time_ms stats) (wall_clock_time_ms stats) in
  mkStats (total_problems stats) (success_count stats) (fail_count stats)
          (total_iterations stats)
          (total_solve_time_ms stats + total_time_ms result)%float
          (wall_clock_time_ms stats).

(** [for (const auto& result : results)] of [solve_parallel] and
    [solve_serial]: the two loops are the same text. *)
Fixpoint record_results (out_file : ofstream) (results : list LP_solution)
    (stats : SolverStatistics) : M SolverStatistics :=
  match results with
  | [] => ret stats
  | result :: rest =>
      (_ <- (if exitflag result =? 1
             then ofstream_write out_file (get_data_string result)
             else ret tt) ;;
       record_results out_file rest (account stats result))%lp
  end.

Definition set_total_problems (n : N) (stats : SolverStatistics)
  : SolverStatistics :=
  mkStats n (success_count stats) (fail_count stats)
          (total_iterations stats) (total_solve_time_ms stats)
          (wall_clock_time_ms stats).

Definition set_wall_clock (ms : float) (stats : SolverStatistics)
  : SolverStatistics :=
  mkStats (total_problems stats) (success_count stats) (fail_count stats)
          (total_iterations stats) (total_solve_time_ms stats) ms.

Definition log_event (ev : event) : M unit :=
  fun w => (Returned tt, with_events [ev] w).

Definition print_help : M unit :=
  cout_put
    [put_str ("用法:" +:+ nl);
     put_str ("  unified_lp_solver [选项]" +:+ nl +:+ nl);
     put_str ("选项:" +:+ nl);
     put_str ("  --parallel      使用并行模式 (默认)" +:+ nl);
     put_str ("  --serial        使用串行模式" +:+ nl);
     put_str ("  --threads N     设置并行线程数 (默认: 4)" +:+ nl);
     put_str ("  --file FILE     指定输入文件 (默认: problems.json)" +:+ nl);
     put_str ("  --help          显示帮助信息" +:+ nl)].

Definition rule : string := "====================================" +:+ nl.

Definition print_statistics (stats : SolverStatistics) (is_parallel : bool)
    (thread_count : Z) : M unit :=
  (_ <- cout_put [put_str (nl +:+ "============ 求解汇总 ============" +:+ nl)] ;;
   _ <- (if is_parallel
         then cout_put [put_str "模式: 并行 (线程数: "; put_int thread_count;
                        put_str (")" +:+ nl)]
         else cout_put [put_str ("模式: 串行" +:+ nl)]) ;;
   _ <- cout_put
          [put_str "求解问题总数: "; put_size (total_problems stats); put_str nl;
           put_str "成功解决的问题数: "; put_size (success_count stats); put_str nl;
           put_str "失败的问题数: "; put_size (fail_count stats); put_str nl;
           put_str "总迭代次数: "; put_double (total_iterations stats); put_str nl;
           put_str "总求解时间(各问题累加): ";
           put_double (total_solve_time_ms stats); put_str (" 毫秒" +:+ nl);
           put_str "实际总耗时: "; put_double (wall_clock_time_ms stats);
           put_str (" 毫秒" +:+ nl)] ;;
   _ <- (if is_parallel
         then cout_put
                [put_str "并行加速比: "; std_fixed; std_setprecision 2;
                 put_double (total_solve_time_ms stats / wall_clock_time_ms stats)%float;
                 put_str ("x" +:+ nl);
                 put_str ("答案与题目详情见answer_parallel.txt" +:+ nl);
                 put_str rule]
         else cout_put
                [put_str ("答案与题目详情见answer_serial.txt" +:+ nl);
                 put_str rule]) ;;
   cout_put
     [put_str "平均每个问题耗时: ";
      put_double (wall_clock_time_ms stats
                  / double_of_size_t (total_problems stats))%float;
      put_str (" 毫秒" +:+ nl);
      put_str rule])%lp.

(** Command-line options, with the defaults [main] starts from. *)
Record options : Type := mkOptions {
  parallel_mode : bool;
  thread_count : Z;
  filename : string
}.

Definition default_options : options := mkOptions true 4 "problems.json".

(** How the argument loop of [main] ends: it falls through to the [try]
    block, or [main] returns from inside the loop. *)
Inductive parsed : Type :=
| Proceed (o : options)
| Return_ (code : Z).

(** The [for] loop over [argv[1..argc-1]]; [args] is what is left from
    [argv[i]] on, so [i+1 < argc] holds exactly when [rest] is not empty. *)
Fixpoint parse_args (args : list string) (o : options) : M parsed :=
  match args with
  | [] => ret (Proceed o)
  | arg :: rest =>
      if String.eqb arg "--parallel" then
        parse_args rest (mkOptions true (thread_count o) (filename o))
      else if String.eqb arg "--serial" then
        parse_args rest (mkOptions false (thread_count o) (filename o))
      else
        match rest with
        | value :: rest' =>
            if String.eqb arg "--threads" then
              (n <- lift (stoi value) ;;
               parse_args rest' (mkOptions (parallel_mode o) n (filename o)))%lp
            else if String.eqb arg "--file" then
              parse_args rest' (mkOptions (parallel_mode o) (thread_count o) value)
            else if String.eqb arg "--help" then
              (_ <- print_help ;; ret (Return_ 0))%lp
            else
              (_ <- cerr_put ["未知参数: "; arg; nl] ;;
               _ <- print_help ;; ret (Return_ 1))%lp
        | [] =>
            if String.eqb arg "--help" then
              (_ <- print_help ;; ret (Return_ 0))%lp
            else
              (_ <- cerr_put ["未知参数: "; arg; nl] ;;
               _ <- print_help ;; ret (Return_ 1))%lp
        end
  end.

(** How the process ends: [main] returns [code], an exception leaves [main]
    and [std::terminate] is called, or a failed assertion calls [abort]. *)
Inductive exit_status : Type :=
| Exit (code : Z)
| Terminate (e : exn)
| Abort.

Section Harness.

(** The collaborators that are not in [main.cc]: the JSON parser of
    [file >> j] (an error message or a value) and the two solving backends.
    [solve_batch thread_count problems] is what
    [ParallelSolver(thread_count).solve_batch(problems)] answers;
    [solve k problem] is what the call number [k] (from 0) of
    [solver.solve] on the [SerialSolver] of a run answers. *)
Variable json_parse : string -> string + json.
Variable solve_batch : Z -> list LP_Problem -> outcome (list LP_solution).
Variable solve : nat -> LP_Problem -> outcome LP_solution.

Definition read_problems_from_file (filename : string) : M (list LP_Problem) :=
  fun w =>
    match ifstream_open filename w with
    | None => (Thrown (runtime_error ("无法打开文件: " +:+ filename)), w)
    | Some text =>
        match json_parse text with
        | inl msg => (Thrown (json_exception msg), w)
        | inr j =>
            ((records <~ json_elements j ;; load_problems records [])%lp, w)
        end
    end.

(** [elapsed_ms] is the count of milliseconds the two clock readings around
    the backend call are apart. *)
Definition solve_parallel (problems : list LP_Problem) (thread_count : Z)
    (elapsed_ms : Z) : M SolverStatistics :=
  (let stats := set_total_problems (size problems) stats0 in
   _ <- log_event (BatchCall thread_count problems) ;;
   results <- lift (solve_batch thread_count problems) ;;
   let stats := set_wall_clock (double_of_Z elapsed_ms) stats in
   out_file <- ofstream_open_app answer_parallel ;;
   _ <- assert (is_open out_file) ;;
   stats <- record_results out_file results stats ;;
   _ <- ofstream_close out_file ;;
   ret stats)%lp.

(** First loop of [solve_serial]: one [solver.solve] per problem. *)
Fixpoint solve_each (problems : list LP_Problem) (results : list LP_solution)
  : M (list LP_solution) :=
  match problems with
  | [] => ret results
  | problem :: rest =>
      (_ <- log_event (SingleCall problem) ;;
       r <- lift (solve (length results) problem) ;;
       solve_each rest (results ++ [r]))%lp
  end.

Definition solve_serial (problems : list LP_Problem) (elapsed_ms : Z)
  : M SolverStatistics :=
  (let stats := set_total_problems (size problems) stats0 in
   results <- solve_each problems [] ;;
   let stats := set_wall_clock (double_of_Z elapsed_ms) stats in
   out_file <- ofstream_open_app answer_serial ;;
   _ <- assert (is_open out_file) ;;
   stats <- record_results out_file results stats ;;
   _ <- ofstream_close out_file ;;
   ret stats)%lp.

(** [if (parallel_mode) ... else ...] of [main]. *)
Definition dispatch (parallel_mode : bool) (problems : list LP_Problem)
    (thread_count : Z) (elapsed_ms : Z) : M SolverStatistics :=
  if parallel_mode then solve_parallel problems thread_count elapsed_ms
  else solve_serial problems elapsed_ms.

(** The [try] block of [main]. *)
Definition try_block (o : options) (elapsed_ms : Z) : M unit :=
  (problems <- read_problems_from_file (filename o) ;;
   stats <- dispatch (parallel_mode o) problems (thread_count o) elapsed_ms ;;
   print_statistics stats (parallel_mode o) (thread_count o))%lp.

(** [main(argc, argv)]; [argv] includes the program name [argv[0]]. *)
Definition main (argv : list string) (elapsed_ms : Z) (w : world)
  : exit_status * world :=
  match parse_args (tail argv) default_options w with
  | (Thrown e, w1) => (Terminate e, w1)
  | (Aborted, w1) => (Abort, w1)
  | (Returned (Return_ code), w1) => (Exit code, w1)
  | (Returned (Proceed o), w1) =>
      match try_block o elapsed_ms w1 with
      | (Returned _, w2) => (Exit 0, w2)
      | (Thrown e, w2) =>
          let '(_, w3) := cerr_put ["错误: "; what e; nl] w2 in (Exit 1, w3)
      | (Aborted, w2) => (Abort, w2)
      end
  end.

(** The answers of the sequential backend to [problems], asked in order
    from call number [k] on. *)
Fixpoint solve_from (k : nat) (problems : list LP_Problem)
  : outcome (list LP_solution) :=
  match problems with
  | [] => Returned []
  | problem :: rest =>
      (r <~ solve k problem ;; rs <~ solve_from (S k) rest ;; Returned (r :: rs))%lp
  end.

(** What the backend of a mode answers on a batch: the batch call of the
    concurrent variant, one call per problem of the sequential one. *)
Definition backend_answers (parallel_mode : bool) (thread_count : Z)
    (problems : list LP_Problem) : outcome (list LP_solution) :=
  if parallel_mode then solve_batch thread_count problems
  else solve_from 0 problems.

End Harness.

(** The output artifact of a mode. *)
Definition artifact (parallel_mode : bool) : string :=
  if parallel_mode then answer_parallel else answer_serial.

(** The backend invocations of a mode on a batch. *)
Definition calls_of (parallel_mode : bool) (thread_count : Z)
    (problems : list LP_Problem) : list event :=
  if parallel_mode then [BatchCall thread_count problems]
  else map SingleCall problems.

Definition with_cerr (texts : list string) (w : world) : world :=
  mkWorld (files w) (unreadable w) (unwritable w) (events w)
          (cout w) (cout_flags w) (cerr w ++ map Str texts).

Definition with_cout (items : list item) (w : world) : world :=
  mkWorld (files w) (unreadable w) (unwritable w) (events w)
          (cout w ++ items) (cout_flags w) (cerr w).

(** Statistics at the entry of the aggregation loop. *)
Definition stats_at_entry (problems : list LP_Problem) (elapsed_ms : Z)
  : SolverStatistics :=
  mkStats (size problems) 0 0 0 0 (double_of_Z elapsed_ms).

(** ** Vocabulary of the statements *)

(** A solution counts as solved when [exitflag == 1]. *)
Definition succeeded (r : LP_solution) : bool := exitflag r =? 1.

(** Number of elements of [l] that satisfy [f]. *)
Definition count_if {A : Type} (f : A -> bool) (l : list A) : N :=
  N.of_nat (length (List.filter f l)).

(** The blocks of the solved problems, in order, as one text. *)
Definition persisted (results : list LP_solution) : string :=
  fold_right String.append "" (map get_data_string (List.filter succeeded results)).

(** Left-to-right sum of [double]s, starting from [acc]. *)
Definition sum_from (acc : float) (l : list float) : float :=
  fold_left PrimFloat.add l acc.

(** An outcome of the JSON layer: a value, or one of its exceptions. *)
Definition json_outcome {A : Type} (o : outcome A) : Prop :=
  match o with
  | Returned _ | Thrown (json_exception _) => True
  | Thrown _ | Aborted => False
  end.

(** A parse error. *)
Definition is_json_error {A : Type} (o : outcome A) : Prop :=
  exists msg, o = Thrown (json_exception msg).

(** [w'] is [w] up to what was sent to [std::cout]. *)
Definition same_outside_cout (w w' : world) : Prop :=
  files w' = files w /\ unreadable w' = unreadable w /\
  unwritable w' = unwritable w /\ events w' = events w /\
  cerr w' = cerr w.

(** The five options the argument loop knows. *)
Definition known_flags : list string :=
  ["--parallel"; "--serial"; "--threads"; "--file"; "--help"].

(** What [print_help] sends to [std::cout]. *)
Definition usage : list item :=
  [Str ("用法:" +:+ nl);
   Str ("  unified_lp_solver [选项]" +:+ nl +:+ nl);
   Str ("选项:" +:+ nl);
   Str ("  --parallel      使用并行模式 (默认)" +:+ nl);
   Str ("  --serial        使用串行模式" +:+ nl);
   Str ("  --threads N     设置并行线程数 (默认: 4)" +:+ nl);
   Str ("  --file FILE     指定输入文件 (默认: problems.json)" +:+ nl);
   Str ("  --help          显示帮助信息" +:+ nl)].

(** ** A sample batch and sample backends *)

Module Sample.

Definition feasible_record : json :=
  JObject [("c", JArray [JNumber 1; JNumber 1]);
           ("A", JArray [JArray [JNumber 1; JNumber 1]]);
           ("b", JArray [JNumber 2])].

Definition unsolved_record : json :=
  JObject [("c", JArray [JNumber 1; JNumber 1]);
           ("A", JArray [JArray [JNumber 1; JNumber 1]]);
           ("b", JArray [JNumber 2]);
           ("ismaximization", JBool true)].

Definition record_without_c : json :=
  JObject [("A", JArray [JArray [JNumber 1; JNumber 1]]);
           ("b", JArray [JNumber 2])].

(** A stand-in for the JSON parser: three batch texts, and a syntax error
    for every other text. *)
Definition parse (text : string) : string + json :=
  if String.eqb text "[]" then inr (JArray [])
  else if String.eqb text "[feasible, unsolved]"
  then inr (JArray [feasible_record; unsolved_record])
  else if String.eqb text "[feasible, no c]"
  then inr (JArray [feasible_record; record_without_c])
  else inl "syntax error".

(** A stand-in for the backend: minimizations succeed with one block of
    text, maximizations fail. *)
Definition solve (k : nat) (p : LP_Problem) : outcome LP_solution :=
  let '(_, _, _, _, _, _, _, is_maximization) := p in
  if is_maximization then Returned (mkSolution (-3) 2 0.5 "")
  else Returned (mkSolution 1 3 1.5 ("x = [0, 0]" +:+ nl)).

Definition solve_batch (threads : Z) (problems : list LP_Problem)
  : outcome (list LP_solution) :=
  traverse (solve 0) problems.

(** A backend that loses every solution. *)
Definition lossy_batch (threads : Z) (problems : list LP_Problem)
  : outcome (list LP_solution) :=
  Returned [].

Definition world_of (fs : gmap string string) (locked : gset string) : world :=
  mkWorld fs ∅ locked [] [] default_flags [].

Definition two_problems : world :=
  world_of {[ "problems.json" := "[feasible, unsolved]";
              "answer_parallel.txt" := "earlier run" +:+ nl ]} ∅.

Definition empty_batch : world :=
  world_of {[ "problems.json" := "[]" ]} ∅.

Definition batch_without_c : world :=
  world_of {[ "problems.json" := "[feasible, no c]" ]} ∅.

Definition no_input : world := world_of ∅ ∅.

Definition locked_artifacts : world :=
  world_of {[ "problems.json" := "[feasible, unsolved]" ]}
           {[ "answer_parallel.txt"; "answer_serial.txt" ]}.

Definition problems : list LP_Problem :=
  [([1; 1]%float, [[1; 1]%float], [2%float], [], [], [], [], false);
   ([1; 1]%float, [[1; 1]%float], [2%float], [], [], [], [], true)].

(** What the two backends answer on [problems]. *)
Definition solutions : list LP_solution :=
  [mkSolution 1 3 1.5 ("x = [0, 0]" +:+ nl); mkSolution (-3) 2 0.5 ""].

End Sample.

(** ** Further vocabulary and samples *)

(** The [double]s of a stream buffer in order, each with the flags it was
    rendered under. *)
Fixpoint doubles_of (items : list item) : list (fmtflags * float) :=
  match items with
  | [] => []
  | Dbl flags d :: rest => (flags, d) :: doubles_of rest
  | _ :: rest => doubles_of rest
  end.

Module Faulty.

(** A concurrent backend that throws. *)
Definition throwing_batch (threads : Z) (problems : list LP_Problem)
  : outcome (list LP_solution) :=
  Thrown (backend_exception "solver failed").

(** A sequential backend whose second call throws. *)
Definition solve_then_throw (k : nat) (p : LP_Problem) : outcome LP_solution :=
  if (k =? 1)%nat then Thrown (backend_exception "solver failed")
  else Sample.solve k p.

(** A batch file that is not JSON. *)
Definition malformed : world :=
  Sample.world_of {[ "problems.json" := "{" ]} ∅.

(** Solutions none of which is solved. *)
Definition unsolved : list LP_solution :=
  [mkSolution (-3) 2 0.5 "never written"; mkSolution 0 1 0.25 "nor this"].

Definition unsolved_batch (threads : Z) (problems : list LP_Problem)
  : outcome (list LP_solution) :=
  Returned unsolved.

End Faulty.

(** * Properties *)

(** ** The model at work *)

(** [std::stoi] skips white space, takes a sign and stops at the first
    character that is not a digit. *)
Example stoi_prefix : stoi " +12abc" = Returned 12.
Proof. reflexivity. Qed.

Example stoi_no_digit : stoi "abc" = Thrown (invalid_argument "stoi").
Proof. reflexivity. Qed.

Example stoi_too_large : stoi "2147483648" = Thrown (out_of_range "stoi").
Proof. reflexivity. Qed.

Example stoi_int_min : stoi "-2147483648" = Returned (-2147483648).
Proof. reflexivity. Qed.

(** The batch of section 8 of the specification: one problem solved, one
    not; the run counts 2 = 1 + 1 and appends one block. *)
Example two_problems_run :
  let '(status, w) :=
    main Sample.parse Sample.solve_batch Sample.solve ["lp"] 7 Sample.two_problems in
  status = Exit 0 /\
  files w !! answer_parallel = Some ("earlier run" +:+ nl +:+ "x = [0, 0]" +:+ nl) /\
  events w = [BatchCall 4 Sample.problems; OpenAppend answer_parallel true] /\
  In (Size 2) (cout w) /\ cerr w = [].
Proof. vm_compute. repeat split; auto 20. Qed.

(** ** Strings and worlds *)

Lemma append_nil_r (s : string) : s +:+ "" = s.
Proof.
  induction s as [|c s IH]; [reflexivity|].
  change (String c (s +:+ "") = String c s). now f_equal.
Qed.

Lemma append_assoc (s1 s2 s3 : string) : (s1 +:+ s2) +:+ s3 = s1 +:+ (s2 +:+ s3).
Proof.
  induction s1 as [|c s1 IH]; [reflexivity|].
  change (String c ((s1 +:+ s2) +:+ s3) = String c (s1 +:+ (s2 +:+ s3))).
  now f_equal.
Qed.

Lemma set_files_same (w : world) : set_files (files w) w = w.
Proof. now destruct w. Qed.

Lemma set_files_twice (f g : gmap string string) (w : world) :
  set_files f (set_files g w) = set_files f w.
Proof. reflexivity. Qed.

(** ** The aggregation loop *)

Lemma size_t_incr_lt (n : N) : (size_t_incr n < 2 ^ 64)%N.
Proof. unfold size_t_incr. apply N.mod_lt. discriminate. Qed.

Lemma account_total_problems st r : total_problems (account st r) = total_problems st.
Proof. unfold account. now destruct (exitflag r =? 1). Qed.

Lemma account_wall_clock st r : wall_clock_time_ms (account st r) = wall_clock_time_ms st.
Proof. unfold account. now destruct (exitflag r =? 1). Qed.

Lemma account_total_iterations st r :
  total_iterations (account st r) = (total_iterations st + iterations r)%float.
Proof. unfold account. now destruct (exitflag r =? 1). Qed.

Lemma account_total_solve_time st r :
  total_solve_time_ms (account st r) = (total_solve_time_ms st + total_time_ms r)%float.
Proof. unfold account. now destruct (exitflag r =? 1). Qed.

Lemma account_success_count st r :
  success_count (account st r) =
  if succeeded r then size_t_incr (success_count st) else success_count st.
Proof. unfold account, succeeded. now destruct (exitflag r =? 1). Qed.

Lemma account_fail_count st r :
  fail_count (account st r) =
  if succeeded r then fail_count st else size_t_incr (fail_count st).
Proof. unfold account, succeeded. now destruct (exitflag r =? 1). Qed.

Lemma fold_account_frame rs : forall st,
  total_problems (fold_left account rs st) = total_problems st /\
  wall_clock_time_ms (fold_left account rs st) = wall_clock_time_ms st.
Proof.
  induction rs as [|r rs IH]; intros st; simpl; [easy|].
  destruct (IH (account st r)) as [-> ->].
  now rewrite account_total_problems, account_wall_clock.
Qed.

Lemma fold_account_sums rs : forall st,
  total_iterations (fold_left account rs st)
    = sum_from (total_iterations st) (map iterations rs) /\
  total_solve_time_ms (fold_left account rs st)
    = sum_from (total_solve_time_ms st) (map total_time_ms rs).
Proof.
  unfold sum_from.
  induction rs as [|r rs IH]; intros st; simpl; [easy|].
  destruct (IH (account st r)) as [-> ->].
  now rewrite account_total_iterations, account_total_solve_time.
Qed.

Lemma count_if_cons {A : Type} (f : A -> bool) (a : A) (l : list A) :
  count_if f (a :: l) = ((if f a then 1 else 0) + count_if f l)%N.
Proof. unfold count_if. simpl. destruct (f a); simpl; lia. Qed.

Lemma fold_account_counts rs : forall st,
  (success_count st < 2 ^ 64)%N -> (fail_count st < 2 ^ 64)%N ->
  success_count (fold_left account rs st)
    = ((success_count st + count_if succeeded rs) mod 2 ^ 64)%N /\
  fail_count (fold_left account rs st)
    = ((fail_count st + count_if (fun r => negb (succeeded r)) rs) mod 2 ^ 64)%N.
Proof.
  induction rs as [|r rs IH]; intros st Hs Hf.
  - simpl. unfold count_if. simpl. rewrite !N.add_0_r, !N.mod_small; easy.
  - simpl fold_left. rewrite !count_if_cons.
    destruct (IH (account st r)) as [-> ->].
    + rewrite account_success_count. destruct (succeeded r); [apply size_t_incr_lt | easy].
    + rewrite account_fail_count. destruct (succeeded r); [easy | apply size_t_incr_lt].
    + rewrite account_success_count, account_fail_count.
      destruct (succeeded r); simpl negb; cbv iota; unfold size_t_incr;
        rewrite ?N.Div0.add_mod_idemp_l, ?N.add_0_l;
        split; f_equal; lia.
Qed.

Lemma count_if_partition {A : Type} (f : A -> bool) (l : list A) :
  (count_if f l + count_if (fun a => negb (f a)) l)%N = N.of_nat (length l).
Proof.
  induction l as [|a l IH]; [reflexivity|].
  rewrite !count_if_cons. cbn [length]. rewrite Nat2N.inj_succ.
  destruct (f a); cbn [negb]; lia.
Qed.

Lemma count_if_le {A : Type} (f : A -> bool) (l : list A) :
  (count_if f l <= N.of_nat (length l))%N.
Proof. pose proof (count_if_partition f l). lia. Qed.

(** The loop always runs to its end, and its statistics are the left fold
    of [account]. *)
Lemma record_results_stats out_file rs : forall st w,
  exists w', record_results out_file rs st w = (Returned (fold_left account rs st), w').
Proof.
  induction rs as [|r rs IH]; intros st w; simpl.
  - now exists w.
  - unfold bind.
    destruct (exitflag r =? 1).
    + unfold ofstream_write. destruct (is_open out_file); apply IH.
    + unfold ret. apply IH.
Qed.

(** On an open stream the loop appends exactly the blocks of the solved
    problems. *)
Lemma record_results_open path rs : forall st w old,
  files w !! path = Some old ->
  record_results (mkOfstream path true) rs st w =
    (Returned (fold_left account rs st),
     set_files (<[path := old +:+ persisted rs]> (files w)) w).
Proof.
  induction rs as [|r rs IH]; intros st w old Hold.
  - change (persisted []) with "". rewrite append_nil_r.
    cbn [record_results fold_left]. unfold ret.
    now rewrite insert_id, set_files_same.
  - cbn [record_results fold_left]. unfold bind.
    assert (Hp : persisted (r :: rs) =
                 if exitflag r =? 1 then get_data_string r +:+ persisted rs
                 else persisted rs).
    { unfold persisted. cbn [List.filter]. unfold succeeded at 1.
      now destruct (exitflag r =? 1). }
    rewrite Hp. clear Hp.
    destruct (exitflag r =? 1).
    + unfold ofstream_write. cbn [is_open of_path].
      rewrite Hold. cbn [default].
      rewrite (IH _ _ (old +:+ get_data_string r)).
      * cbn [files set_files]. rewrite insert_insert_eq.
        now rewrite append_assoc.
      * cbn [files set_files]. apply lookup_insert_eq.
    + unfold ret. now rewrite (IH _ _ old Hold).
Qed.

(** ** The two solving paths *)

Lemma with_events_nil (w : world) : with_events [] w = w.
Proof. destruct w. unfold with_events. cbn. now rewrite app_nil_r. Qed.

Lemma with_events_app (c1 c2 : list event) (w : world) :
  with_events c2 (with_events c1 w) = with_events (c1 ++ c2) w.
Proof. unfold with_events. cbn. now rewrite app_assoc. Qed.

Section PathProperties.

Variable json_parse : string -> string + json.
Variable solve_batch : Z -> list LP_Problem -> outcome (list LP_solution).
Variable solve : nat -> LP_Problem -> outcome LP_solution.

Lemma solve_each_returns problems : forall results acc w,
  solve_from solve (length acc) problems = Returned results ->
  solve_each solve problems acc w
    = (Returned (acc ++ results)%list, with_events (map SingleCall problems) w).
Proof.
  induction problems as [|p ps IH]; intros results acc w H; cbn in H.
  - inversion H. cbn. unfold ret. now rewrite app_nil_r, with_events_nil.
  - destruct (solve (length acc) p) as [r| |] eqn:Hp; cbn in H; try discriminate.
    destruct (solve_from solve (S (length acc)) ps) as [rs| |] eqn:Hps;
      cbn in H; try discriminate.
    inversion H. subst results.
    cbn [solve_each]. unfold bind, log_event, lift. rewrite Hp.
    rewrite (IH rs).
    + rewrite <- app_assoc. cbn [app map].
      f_equal. fold (with_events [SingleCall p] w). apply with_events_app.
    + rewrite length_app, Nat.add_comm. exact Hps.
Qed.

(** What a mode does when its backend answers and the artifact opens: the
    statistics are the fold of [account] from the entry state, the artifact
    grows by the blocks of the solved problems; the backend calls come
    first, the opening of the artifact after them. *)
Lemma dispatch_returns mode problems threads elapsed_ms w results :
  backend_answers solve_batch solve mode threads problems = Returned results ->
  openable_for_append (artifact mode) w = true ->
  dispatch solve_batch solve mode problems threads elapsed_ms w =
    (Returned (fold_left account results (stats_at_entry problems elapsed_ms)),
     set_files (<[artifact mode :=
                    default "" (files w !! artifact mode) +:+ persisted results]>
                  (files w))
               (with_events (calls_of mode threads problems
                             ++ [OpenAppend (artifact mode) true]) w)).
Proof.
  intros Hb Ho. destruct mode; cbn [backend_answers artifact calls_of dispatch] in *.
  - unfold solve_parallel, bind, log_event, lift. rewrite Hb.
    unfold ofstream_open_app.
    change (openable_for_append answer_parallel _)
      with (openable_for_append answer_parallel w). rewrite Ho.
    cbn [assert is_open].
    erewrite record_results_open
      by (cbn [files set_files with_events]; apply lookup_insert_eq).
    unfold ofstream_close, ret. cbn [files set_files with_events].
    rewrite insert_insert_eq. unfold set_files, with_events. cbn.
    now rewrite <- app_assoc.
  - unfold solve_serial, bind.
    rewrite (solve_each_returns _ _ [] _ Hb). cbn [app].
    unfold ofstream_open_app.
    change (openable_for_append answer_serial _)
      with (openable_for_append answer_serial w). rewrite Ho.
    cbn [assert is_open].
    erewrite record_results_open
      by (cbn [files set_files with_events]; apply lookup_insert_eq).
    unfold ofstream_close, ret. cbn [files set_files with_events].
    rewrite insert_insert_eq. unfold set_files, with_events. cbn.
    now rewrite <- app_assoc.
Qed.

(** What a mode does when its backend answers and the artifact does not
    open: the assertion fails after the backend ran and the opening was
    tried, and nothing else happened. *)
Lemma dispatch_aborts mode problems threads elapsed_ms w results :
  backend_answers solve_batch solve mode threads problems = Returned results ->
  openable_for_append (artifact mode) w = false ->
  dispatch solve_batch solve mode problems threads elapsed_ms w =
    (Aborted, with_events (calls_of mode threads problems
                           ++ [OpenAppend (artifact mode) false]) w).
Proof.
  intros Hb Ho. destruct mode; cbn [backend_answers artifact calls_of dispatch] in *.
  - unfold solve_parallel, bind, log_event, lift. rewrite Hb.
    unfold ofstream_open_app.
    change (openable_for_append answer_parallel _)
      with (openable_for_append answer_parallel w). rewrite Ho.
    cbn [assert is_open]. now rewrite with_events_app.
  - unfold solve_serial, bind.
    rewrite (solve_each_returns _ _ [] _ Hb).
    unfold ofstream_open_app.
    change (openable_for_append answer_serial _)
      with (openable_for_append answer_serial w). rewrite Ho.
    cbn [assert is_open]. now rewrite with_events_app.
Qed.

End PathProperties.

(** ** Statistics of a batch run *)

Section BatchRun.

Variable solve_batch : Z -> list LP_Problem -> outcome (list LP_solution).
Variable solve : nat -> LP_Problem -> outcome LP_solution.

(** C1: in a batch run whose backend returns exactly one solution per input
    problem (and whose output artifact opens), the run returns statistics
    with [success_count + fail_count = total_problems], on the parallel
    path ([mode = true]) and on the serial path ([mode = false]). *)
Theorem counts_partition_total_problems
    (mode : bool) (problems : list LP_Problem) (threads elapsed_ms : Z)
    (w : world) (results : list LP_solution) :
  fits_size_t problems ->
  backend_answers solve_batch solve mode threads problems = Returned results ->
  length results = length problems ->
  openable_for_append (artifact mode) w = true ->
  exists stats w',
    dispatch solve_batch solve mode problems threads elapsed_ms w
      = (Returned stats, w') /\
    (success_count stats + fail_count stats)%N = total_problems stats.
Proof.
  intros Hfit Hb Hlen Ho.
  rewrite (dispatch_returns _ _ _ _ _ _ _ _ Hb Ho).
  eexists _, _. split; [reflexivity|].
  destruct (fold_account_frame results (stats_at_entry problems elapsed_ms)) as [-> _].
  destruct (fold_account_counts results (stats_at_entry problems elapsed_ms))
    as [-> ->]; [reflexivity | reflexivity |].
  cbn [stats_at_entry success_count fail_count total_problems]. unfold size.
  pose proof (count_if_partition succeeded results) as Hsum.
  pose proof (count_if_le succeeded results) as Hs.
  pose proof (count_if_le (fun r => negb (succeeded r)) results) as Hf.
  unfold fits_size_t in Hfit. rewrite Hlen in Hsum, Hs, Hf.
  rewrite !N.add_0_l, !N.mod_small by lia. exact Hsum.
Qed.

(** C8: [total_problems] is the number of input problems, whatever the
    number of solutions the backend returns. *)
Theorem total_problems_is_input_count
    (mode : bool) (problems : list LP_Problem) (threads elapsed_ms : Z)
    (w : world) (results : list LP_solution) :
  backend_answers solve_batch solve mode threads problems = Returned results ->
  openable_for_append (artifact mode) w = true ->
  exists stats w',
    dispatch solve_batch solve mode problems threads elapsed_ms w
      = (Returned stats, w') /\
    total_problems stats = N.of_nat (length problems).
Proof.
  intros Hb Ho.
  rewrite (dispatch_returns _ _ _ _ _ _ _ _ Hb Ho).
  eexists _, _. split; [reflexivity|].
  now destruct (fold_account_frame results (stats_at_entry problems elapsed_ms)) as [-> _].
Qed.

End BatchRun.

(** C3: when a mode runs, the text appended to its artifact
    ([answer_parallel.txt] for the concurrent path, [answer_serial.txt] for
    the sequential one) is the blocks of exactly the solutions with
    [exitflag == 1]; what the artifact held before stays in front of it and
    no other file changes; a second run on the same batch leaves all of
    that in place and appends the blocks of its own solutions behind it, so
    that a backend which answers as before has each block twice. *)
Theorem answers_appended_for_solved_only
    (solve_batch solve_batch' : Z -> list LP_Problem -> outcome (list LP_solution))
    (solve solve' : nat -> LP_Problem -> outcome LP_solution)
    (mode : bool) (problems : list LP_Problem) (threads elapsed_ms elapsed_ms' : Z)
    (w : world) (results results' : list LP_solution) :
  backend_answers solve_batch solve mode threads problems = Returned results ->
  backend_answers solve_batch' solve' mode threads problems = Returned results' ->
  openable_for_append (artifact mode) w = true ->
  let before := default "" (files w !! artifact mode) in
  exists stats w1 stats' w2,
    dispatch solve_batch solve mode problems threads elapsed_ms w
      = (Returned stats, w1) /\
    files w1 = <[artifact mode := before +:+ persisted results]> (files w) /\
    dispatch solve_batch' solve' mode problems threads elapsed_ms' w1
      = (Returned stats', w2) /\
    files w2 = <[artifact mode := (before +:+ persisted results) +:+ persisted results']>
                 (files w).
Proof.
  intros Hb Hb' Ho before.
  rewrite (dispatch_returns _ _ _ _ _ _ _ _ Hb Ho).
  eexists _, _, _, _. split; [reflexivity|]. split; [reflexivity|].
  rewrite (dispatch_returns _ _ _ _ _ _ _ _ Hb') by exact Ho.
  split; [reflexivity|].
  cbn [files set_files with_events].
  now rewrite lookup_insert_eq, insert_insert_eq.
Qed.

(** C2: from the entry state of the loop (counters and sums at zero), the
    aggregation of any sequence of solutions runs to its end; it leaves
    [success_count] at the number of solutions with [exitflag == 1] and
    [fail_count] at the number of all others (as [size_t] values, which are
    the numbers themselves for every sequence a vector can hold), and
    [total_iterations] and [total_solve_time_ms] at the left-to-right sums
    over every solution, solved or not; [total_problems] and the wall-clock
    time are left alone. *)
Theorem aggregation_counts_and_sums
    (out_file : ofstream) (results : list LP_solution) (n : N) (wall : float)
    (w : world) :
  exists stats w',
    record_results out_file results (mkStats n 0 0 0 0 wall) w = (Returned stats, w') /\
    success_count stats = (count_if (fun r => (exitflag r =? 1)%Z) results mod 2 ^ 64)%N /\
    fail_count stats
      = (count_if (fun r => negb (exitflag r =? 1)%Z) results mod 2 ^ 64)%N /\
    (fits_size_t results ->
     success_count stats = count_if (fun r => (exitflag r =? 1)%Z) results /\
     fail_count stats = count_if (fun r => negb (exitflag r =? 1)%Z) results) /\
    total_iterations stats = sum_from 0 (map iterations results) /\
    total_solve_time_ms stats = sum_from 0 (map total_time_ms results) /\
    total_problems stats = n /\
    wall_clock_time_ms stats = wall.
Proof.
  destruct (record_results_stats out_file results (mkStats n 0 0 0 0 wall) w)
    as [w' Hrun].
  exists (fold_left account results (mkStats n 0 0 0 0 wall)), w'.
  split; [exact Hrun|].
  destruct (fold_account_counts results (mkStats n 0 0 0 0 wall)) as [Hs Hf];
    [reflexivity | reflexivity |].
  destruct (fold_account_sums results (mkStats n 0 0 0 0 wall)) as [Hi Ht].
  destruct (fold_account_frame results (mkStats n 0 0 0 0 wall)) as [Hn Hw].
  cbn [success_count fail_count] in Hs, Hf. rewrite N.add_0_l in Hs, Hf.
  fold succeeded.
  change (fun r => succeeded r) with succeeded.
  split; [exact Hs|]. split; [exact Hf|].
  split; [|repeat split; assumption].
  intros Hfit. unfold fits_size_t in Hfit.
  pose proof (count_if_le succeeded results) as Hsle.
  pose proof (count_if_le (fun r => negb (succeeded r)) results) as Hfle.
  rewrite Hs, Hf, !N.mod_small; [split; reflexivity | |];
    eapply N.le_lt_trans; eassumption.
Qed.

(** The two sample solutions: one counted as solved, one as failed. *)
Lemma aggregation_counts_and_sums_witness :
  exists stats w',
    record_results (mkOfstream answer_serial true) Sample.solutions
                   (mkStats 2 0 0 0 0 7) Sample.two_problems = (Returned stats, w') /\
    success_count stats = 1%N /\ fail_count stats = 1%N /\
    total_iterations stats = 5%float /\ total_solve_time_ms stats = 2%float.
Proof.
  destruct (aggregation_counts_and_sums (mkOfstream answer_serial true)
              Sample.solutions 2 7 Sample.two_problems)
    as (stats & w' & Hrun & _ & _ & Hexact & Hi & Ht & _).
  exists stats, w'. split; [exact Hrun|].
  destruct Hexact as [Hs Hf]; [vm_compute; reflexivity|].
  rewrite Hs, Hf, Hi, Ht. vm_compute. repeat split; reflexivity.
Defined.

(** The sample batch of two problems, solved by the concurrent path. *)
Lemma counts_partition_total_problems_witness :
  exists stats w',
    dispatch Sample.solve_batch Sample.solve true Sample.problems 4 7
             Sample.two_problems = (Returned stats, w') /\
    (success_count stats + fail_count stats)%N = total_problems stats.
Proof.
  apply (counts_partition_total_problems Sample.solve_batch Sample.solve true
           Sample.problems 4 7 Sample.two_problems Sample.solutions);
    vm_compute; reflexivity.
Defined.

(** A backend that returns no solution for two problems. *)
Lemma total_problems_is_input_count_witness :
  exists stats w',
    dispatch Sample.lossy_batch Sample.solve true Sample.problems 4 7
             Sample.two_problems = (Returned stats, w') /\
    total_problems stats = 2%N.
Proof.
  apply (total_problems_is_input_count Sample.lossy_batch Sample.solve true
           Sample.problems 4 7 Sample.two_problems []);
    vm_compute; reflexivity.
Defined.

(** Two parallel runs on the sample batch, whose artifact already holds the
    text of an earlier run. *)
Lemma answers_appended_for_solved_only_witness :
  exists stats w1 stats' w2,
    dispatch Sample.solve_batch Sample.solve true Sample.problems 4 7
             Sample.two_problems = (Returned stats, w1) /\
    files w1 = <[answer_parallel :=
                   ("earlier run" +:+ nl) +:+ ("x = [0, 0]" +:+ nl)]>
                 (files Sample.two_problems) /\
    dispatch Sample.solve_batch Sample.solve true Sample.problems 4 9 w1
      = (Returned stats', w2) /\
    files w2 = <[answer_parallel :=
                   (("earlier run" +:+ nl) +:+ ("x = [0, 0]" +:+ nl))
                   +:+ ("x = [0, 0]" +:+ nl)]>
                 (files Sample.two_problems).
Proof.
  apply (answers_appended_for_solved_only Sample.solve_batch Sample.solve_batch
           Sample.solve Sample.solve true Sample.problems 4 7 9
           Sample.two_problems Sample.solutions Sample.solutions);
    vm_compute; reflexivity.
Defined.

(** ** The command line *)

Lemma insert_all_strings (texts : list string) : forall buf flags,
  insert_all (map put_str texts) buf flags = ((buf ++ map Str texts)%list, flags).
Proof.
  induction texts as [|t texts IH]; intros buf flags; cbn [map insert_all].
  - now rewrite app_nil_r.
  - rewrite IH, <- app_assoc. reflexivity.
Qed.

Lemma print_help_spec (w : world) : print_help w = (Returned tt, with_cout usage w).
Proof.
  unfold print_help, cout_put.
  change (insert_all _ (cout w) (cout_flags w)) with
    (insert_all (map put_str
       ["用法:" +:+ nl;
        "  unified_lp_solver [选项]" +:+ nl +:+ nl;
        "选项:" +:+ nl;
        "  --parallel      使用并行模式 (默认)" +:+ nl;
        "  --serial        使用串行模式" +:+ nl;
        "  --threads N     设置并行线程数 (默认: 4)" +:+ nl;
        "  --file FILE     指定输入文件 (默认: problems.json)" +:+ nl;
        "  --help          显示帮助信息" +:+ nl]) (cout w) (cout_flags w)).
  rewrite insert_all_strings. reflexivity.
Qed.

Lemma help_branch (w : world) :
  (_ <- print_help ;; ret (Return_ 0))%lp w = (Returned (Return_ 0), with_cout usage w).
Proof. unfold bind. now rewrite print_help_spec. Qed.

Lemma unknown_branch (arg : string) (w : world) :
  (_ <- cerr_put ["未知参数: "; arg; nl] ;; _ <- print_help ;; ret (Return_ 1))%lp w
  = (Returned (Return_ 1), with_cout usage (with_cerr ["未知参数: "; arg; nl] w)).
Proof. unfold bind. cbn [cerr_put]. now rewrite print_help_spec. Qed.

Lemma list_pair_ind {A : Type} (P : list A -> Prop) :
  P [] -> (forall a, P [a]) ->
  (forall a b l, P l -> P (b :: l) -> P (a :: b :: l)) ->
  forall l, P l.
Proof.
  intros H0 H1 H2 l.
  enough (P l /\ forall a, P (a :: l)) by tauto.
  induction l as [|b l [IHl IHal]]; split; auto.
Qed.

(** Arguments that the loop consumes without leaving [main] act as a prefix:
    the loop goes on with the rest under the options reached, and has
    touched nothing. *)
Lemma parse_args_prefix (pre : list string) : forall o0 o w w',
  parse_args pre o0 w = (Returned (Proceed o), w') ->
  w' = w /\ forall rest w2, parse_args (pre ++ rest) o0 w2 = parse_args rest o w2.
Proof.
  induction pre as [| a | a b l IHl IHbl] using list_pair_ind; intros o0 o w w' H.
  - cbn in H. inversion H. now split.
  - cbn [parse_args] in H. cbn [app].
    destruct (String.eqb a "--parallel") eqn:E1.
    { cbn in H. inversion H. split; [reflexivity|]. intros rest w2.
      cbn [parse_args]. now rewrite E1. }
    destruct (String.eqb a "--serial") eqn:E2.
    { cbn in H. inversion H. split; [reflexivity|]. intros rest w2.
      cbn [parse_args]. now rewrite E1, E2. }
    destruct (String.eqb a "--help").
    + rewrite help_branch in H. discriminate.
    + rewrite unknown_branch in H. discriminate.
  - cbn [parse_args] in H.
    destruct (String.eqb a "--parallel") eqn:E1.
    { destruct (IHbl _ _ _ _ H) as [-> Hrest]. split; [reflexivity|].
      intros rest w2. cbn [app parse_args]. rewrite E1. apply Hrest. }
    destruct (String.eqb a "--serial") eqn:E2.
    { destruct (IHbl _ _ _ _ H) as [-> Hrest]. split; [reflexivity|].
      intros rest w2. cbn [app parse_args]. rewrite E1, E2. apply Hrest. }
    destruct (String.eqb a "--threads") eqn:E3.
    { unfold bind, lift in H. destruct (stoi b) as [n| |] eqn:En; try discriminate.
      destruct (IHl _ _ _ _ H) as [-> Hrest]. split; [reflexivity|].
      intros rest w2. cbn [app parse_args]. rewrite E1, E2, E3.
      unfold bind, lift. rewrite En. apply Hrest. }
    destruct (String.eqb a "--file") eqn:E4.
    { destruct (IHl _ _ _ _ H) as [-> Hrest]. split; [reflexivity|].
      intros rest w2. cbn [app parse_args]. rewrite E1, E2, E3, E4. apply Hrest. }
    destruct (String.eqb a "--help").
    + rewrite help_branch in H. discriminate.
    + rewrite unknown_branch in H. discriminate.
Qed.

(** Options that no argument mentions keep the value the loop started
    from. *)
Lemma parse_args_keeps (args : list string) : forall o0 o w w',
  parse_args args o0 w = (Returned (Proceed o), w') ->
  (~ In "--serial" args -> parallel_mode o0 = true -> parallel_mode o = true) /\
  (~ In "--threads" args -> thread_count o = thread_count o0) /\
  (~ In "--file" args -> filename o = filename o0).
Proof.
  induction args as [| a | a b l IHl IHbl] using list_pair_ind; intros o0 o w w' H.
  - cbn in H. inversion H. tauto.
  - cbn [parse_args] in H.
    destruct (String.eqb a "--parallel") eqn:E1.
    { cbn in H. inversion H. cbn. tauto. }
    destruct (String.eqb a "--serial") eqn:E2.
    { apply String.eqb_eq in E2. subst a. cbn in H. inversion H. cbn. tauto. }
    destruct (String.eqb a "--help").
    + rewrite help_branch in H. discriminate.
    + rewrite unknown_branch in H. discriminate.
  - cbn [parse_args] in H.
    destruct (String.eqb a "--parallel") eqn:E1.
    { destruct (IHbl _ _ _ _ H) as (Hp & Ht & Hf). cbn [In parallel_mode thread_count filename] in *.
      repeat split; intros; [apply Hp | apply Ht | apply Hf]; tauto. }
    destruct (String.eqb a "--serial") eqn:E2.
    { apply String.eqb_eq in E2. subst a.
      destruct (IHbl _ _ _ _ H) as (Hp & Ht & Hf). cbn [In parallel_mode thread_count filename] in *.
      repeat split; intros; [tauto | apply Ht | apply Hf]; tauto. }
    destruct (String.eqb a "--threads") eqn:E3.
    { apply String.eqb_eq in E3. subst a.
      unfold bind, lift in H. destruct (stoi b) as [n| |] eqn:En; try discriminate.
      destruct (IHl _ _ _ _ H) as (Hp & Ht & Hf). cbn [In parallel_mode thread_count filename] in *.
      repeat split; intros; [apply Hp | | apply Hf]; tauto. }
    destruct (String.eqb a "--file") eqn:E4.
    { apply String.eqb_eq in E4. subst a.
      destruct (IHl _ _ _ _ H) as (Hp & Ht & Hf). cbn [In parallel_mode thread_count filename] in *.
      repeat split; intros; [apply Hp | apply Ht | ]; tauto. }
    destruct (String.eqb a "--help").
    + rewrite help_branch in H. discriminate.
    + rewrite unknown_branch in H. discriminate.
Qed.

Lemma eqb_known_flags (arg : string) :
  ~ In arg known_flags ->
  String.eqb arg "--parallel" = false /\ String.eqb arg "--serial" = false /\
  String.eqb arg "--threads" = false /\ String.eqb arg "--file" = false /\
  String.eqb arg "--help" = false.
Proof.
  intros H. unfold known_flags in H. cbn [In] in H.
  repeat split; apply String.eqb_neq; intros ->; tauto.
Qed.

Section CommandLine.

Variable json_parse : string -> string + json.
Variable solve_batch : Z -> list LP_Problem -> outcome (list LP_solution).
Variable solve : nat -> LP_Problem -> outcome LP_solution.

(** C9: after arguments that the loop accepted, [--help] prints the usage
    text and the process exits with status 0; an argument that is none of
    the five known flags prints the usage text (after naming the argument on
    the error stream) and the process exits with status 1; with no argument
    the options are parallel mode, 4 workers and [problems.json], and any
    option that the accepted arguments do not mention keeps that default. *)
Theorem command_line_help_unknown_defaults
    (prog : string) (pre rest : list string) (o : options) (elapsed_ms : Z)
    (w : world) :
  parse_args pre default_options w = (Returned (Proceed o), w) ->
  main json_parse solve_batch solve (prog :: pre ++ "--help" :: rest) elapsed_ms w
    = (Exit 0, with_cout usage w) /\
  (forall arg, ~ In arg known_flags ->
     main json_parse solve_batch solve (prog :: pre ++ arg :: rest) elapsed_ms w
       = (Exit 1, with_cout usage (with_cerr ["未知参数: "; arg; nl] w))) /\
  parse_args [] default_options w
    = (Returned (Proceed (mkOptions true 4 "problems.json")), w) /\
  (~ In "--serial" pre -> parallel_mode o = true) /\
  (~ In "--threads" pre -> thread_count o = 4) /\
  (~ In "--file" pre -> filename o = "problems.json").
Proof.
  intros Hpre.
  destruct (parse_args_prefix _ _ _ _ _ Hpre) as [_ Hrest].
  destruct (parse_args_keeps _ _ _ _ _ Hpre) as (Hp & Ht & Hf).
  split; [|split; [|split; [reflexivity | repeat split; auto]]].
  - unfold main. cbn [tail]. rewrite Hrest.
    assert (Hhelp : parse_args ("--help" :: rest) o w
                    = (Returned (Return_ 0), with_cout usage w)).
    { cbn [parse_args]. change (String.eqb "--help" "--parallel") with false.
      change (String.eqb "--help" "--serial") with false.
      change (String.eqb "--help" "--threads") with false.
      change (String.eqb "--help" "--file") with false.
      change (String.eqb "--help" "--help") with true.
      cbv iota. destruct rest; apply help_branch. }
    now rewrite Hhelp.
  - intros arg Harg. unfold main. cbn [tail]. rewrite Hrest.
    destruct (eqb_known_flags arg Harg) as (E1 & E2 & E3 & E4 & E5).
    assert (Hunknown : parse_args (arg :: rest) o w
                       = (Returned (Return_ 1),
                          with_cout usage (with_cerr ["未知参数: "; arg; nl] w))).
    { cbn [parse_args]. rewrite E1, E2, E3, E4, E5.
      destruct rest; apply unknown_branch. }
    now rewrite Hunknown.
Qed.

(** C10: after arguments that the loop accepted, [--threads] followed by a
    value on which [std::stoi] throws ends the process by the uncaught
    exception: [main] returns no status, and nothing has been printed or
    written. *)
Theorem threads_value_not_integer_terminates
    (prog : string) (pre rest : list string) (value : string) (o : options)
    (e : exn) (elapsed_ms : Z) (w : world) :
  parse_args pre default_options w = (Returned (Proceed o), w) ->
  stoi value = Thrown e ->
  main json_parse solve_batch solve (prog :: pre ++ "--threads" :: value :: rest)
       elapsed_ms w
    = (Terminate e, w).
Proof.
  intros Hpre Hstoi.
  destruct (parse_args_prefix _ _ _ _ _ Hpre) as [_ Hrest].
  unfold main. cbn [tail]. rewrite Hrest. cbn [parse_args].
  change (String.eqb "--threads" "--parallel") with false.
  change (String.eqb "--threads" "--serial") with false.
  change (String.eqb "--threads" "--threads") with true.
  cbv iota. unfold bind, lift. now rewrite Hstoi.
Qed.

End CommandLine.

(** [--threads 8 --help] and [--threads 8 ARG] on the sample world. *)
Lemma command_line_help_unknown_defaults_witness :
  main Sample.parse Sample.solve_batch Sample.solve
       ["lp"; "--threads"; "8"; "--help"; "--bogus"] 0 Sample.two_problems
    = (Exit 0, with_cout usage Sample.two_problems) /\
  (forall arg, ~ In arg known_flags ->
     main Sample.parse Sample.solve_batch Sample.solve
          ["lp"; "--threads"; "8"; arg; "--bogus"] 0 Sample.two_problems
       = (Exit 1, with_cout usage
                    (with_cerr ["未知参数: "; arg; nl] Sample.two_problems))) /\
  parse_args [] default_options Sample.two_problems
    = (Returned (Proceed (mkOptions true 4 "problems.json")), Sample.two_problems) /\
  (~ In "--serial" ["--threads"; "8"] ->
   parallel_mode (mkOptions true 8 "problems.json") = true) /\
  (~ In "--threads" ["--threads"; "8"] ->
   thread_count (mkOptions true 8 "problems.json") = 4) /\
  (~ In "--file" ["--threads"; "8"] ->
   filename (mkOptions true 8 "problems.json") = "problems.json").
Proof.
  apply (command_line_help_unknown_defaults Sample.parse Sample.solve_batch
           Sample.solve "lp" ["--threads"; "8"] ["--bogus"]
           (mkOptions true 8 "problems.json") 0 Sample.two_problems).
  reflexivity.
Defined.

(** [--threads four]: the value has no digit. *)
Lemma threads_value_not_integer_terminates_witness :
  main Sample.parse Sample.solve_batch Sample.solve
       ["lp"; "--serial"; "--threads"; "four"; "--file"; "batch.json"] 0
       Sample.two_problems
    = (Terminate (invalid_argument "stoi"), Sample.two_problems).
Proof.
  apply (threads_value_not_integer_terminates Sample.parse Sample.solve_batch
           Sample.solve "lp" ["--serial"] ["--file"; "batch.json"] "four"
           (mkOptions false 4 "problems.json") (invalid_argument "stoi") 0
           Sample.two_problems); reflexivity.
Defined.

(** ** The loader *)

Lemma json_outcome_obind {A B : Type} (c : outcome A) (k : A -> outcome B) :
  json_outcome c -> (forall a, json_outcome (k a)) -> json_outcome (obind c k).
Proof. destruct c as [a|e|]; cbn; auto. Qed.

Lemma is_json_error_obind {A B : Type} (c : outcome A) (k : A -> outcome B) :
  is_json_error c -> is_json_error (obind c k).
Proof. intros [msg ->]. now exists msg. Qed.

Lemma is_json_error_after {A B : Type} (c : outcome A) (k : A -> outcome B) :
  json_outcome c -> (forall a, is_json_error (k a)) -> is_json_error (obind c k).
Proof.
  destruct c as [a|e|]; cbn; intros Hc Hk; [apply Hk | | contradiction].
  destruct e; try contradiction. now eexists.
Qed.

Lemma json_outcome_traverse {A B : Type} (f : A -> outcome B) (l : list A) :
  (forall a, json_outcome (f a)) -> json_outcome (traverse f l).
Proof.
  intros Hf. induction l as [|a l IH]; cbn [traverse]; [exact I|].
  apply json_outcome_obind; [apply Hf|]. intros b.
  apply json_outcome_obind; [apply IH|]. now intros bs.
Qed.

Lemma json_outcome_get_double j : json_outcome (get_double j).
Proof. now destruct j. Qed.

Lemma json_outcome_get_vector j : json_outcome (get_vector j).
Proof.
  destruct j; try exact I. apply json_outcome_traverse, json_outcome_get_double.
Qed.

Lemma json_outcome_get_matrix j : json_outcome (get_matrix j).
Proof.
  destruct j; try exact I. apply json_outcome_traverse, json_outcome_get_vector.
Qed.

Lemma json_outcome_get_bool j : json_outcome (get_bool j).
Proof. now destruct j. Qed.

Lemma json_outcome_at record key : json_outcome (json_at record key).
Proof. destruct record; try exact I. cbn. now destruct (assoc key members). Qed.

Lemma json_outcome_value {A : Type} record key (get : json -> outcome A) d :
  (forall j, json_outcome (get j)) -> json_outcome (json_value record key get d).
Proof.
  intros Hget. destruct record; try exact I. cbn.
  destruct (assoc key members); [apply Hget | exact I].
Qed.

Lemma json_outcome_required {A : Type} record key (get : json -> outcome A) :
  (forall j, json_outcome (get j)) ->
  json_outcome (v <~ json_at record key ;; get v)%lp.
Proof. intros Hget. apply json_outcome_obind; [apply json_outcome_at | exact Hget]. Qed.

Lemma is_json_error_required {A : Type} members key (get : json -> outcome A) :
  assoc key members = None ->
  is_json_error (v <~ json_at (JObject members) key ;; get v)%lp.
Proof. intros H. cbn [json_at]. rewrite H. now eexists. Qed.

Lemma json_outcome_load_problem record : json_outcome (load_problem record).
Proof.
  unfold load_problem.
  repeat (apply json_outcome_obind;
          [ first [ apply json_outcome_required | apply json_outcome_value ];
            first [ apply json_outcome_get_vector | apply json_outcome_get_matrix
                  | apply json_outcome_get_bool ]
          | intros ? ]).
  exact I.
Qed.

(** A record without [c], [A] or [b] is refused with a parse error. *)
Lemma load_problem_lacking record :
  lacks_mandatory record -> is_json_error (load_problem record).
Proof.
  destruct record as [| | | | |members]; try contradiction.
  intros [Hc | [HA | Hb]]; unfold load_problem.
  - apply is_json_error_obind. now apply is_json_error_required.
  - apply is_json_error_after;
      [apply json_outcome_required, json_outcome_get_vector | intros c].
    apply is_json_error_obind. now apply is_json_error_required.
  - apply is_json_error_after;
      [apply json_outcome_required, json_outcome_get_vector | intros c].
    apply is_json_error_after;
      [apply json_outcome_required, json_outcome_get_matrix | intros A].
    apply is_json_error_obind. now apply is_json_error_required.
Qed.

Lemma load_problems_lacking records : forall problems,
  Exists lacks_mandatory records -> is_json_error (load_problems records problems).
Proof.
  induction records as [|r rest IH]; intros problems H; [inversion H|].
  cbn [load_problems]. inversion H as [? ? Hr | ? ? Hrest]; subst.
  - apply is_json_error_obind. now apply load_problem_lacking.
  - apply is_json_error_after; [apply json_outcome_load_problem|].
    intros p. now apply IH.
Qed.

(** ** The report *)

Lemma same_outside_cout_refl w : same_outside_cout w w.
Proof. unfold same_outside_cout. tauto. Qed.

Lemma same_outside_cout_trans w1 w2 w3 :
  same_outside_cout w1 w2 -> same_outside_cout w2 w3 -> same_outside_cout w1 w3.
Proof. unfold same_outside_cout. intuition congruence. Qed.

Lemma cout_put_returns ops w :
  exists w', cout_put ops w = (Returned tt, w') /\ same_outside_cout w w'.
Proof.
  unfold cout_put. destruct (insert_all ops (cout w) (cout_flags w)) as [buf flags].
  eexists. split; [reflexivity|]. unfold same_outside_cout. cbn. tauto.
Qed.

(** Rendering the report returns, whatever the statistics. *)
Lemma print_statistics_returns stats mode threads w :
  exists w', print_statistics stats mode threads w = (Returned tt, w') /\
             same_outside_cout w w'.
Proof.
  unfold print_statistics, bind.
  destruct (cout_put_returns
              [put_str (nl +:+ "============ 求解汇总 ============" +:+ nl)] w)
    as (w1 & -> & H1).
  destruct mode.
  - match goal with |- context [cout_put ?ops w1] =>
      destruct (cout_put_returns ops w1) as (w2 & -> & H2) end.
    match goal with |- context [cout_put ?ops w2] =>
      destruct (cout_put_returns ops w2) as (w3 & -> & H3) end.
    match goal with |- context [cout_put ?ops w3] =>
      destruct (cout_put_returns ops w3) as (w4 & -> & H4) end.
    match goal with |- context [cout_put ?ops w4] =>
      destruct (cout_put_returns ops w4) as (w5 & -> & H5) end.
    exists w5. split; [reflexivity|].
    eauto using same_outside_cout_trans.
  - match goal with |- context [cout_put ?ops w1] =>
      destruct (cout_put_returns ops w1) as (w2 & -> & H2) end.
    match goal with |- context [cout_put ?ops w2] =>
      destruct (cout_put_returns ops w2) as (w3 & -> & H3) end.
    match goal with |- context [cout_put ?ops w3] =>
      destruct (cout_put_returns ops w3) as (w4 & -> & H4) end.
    match goal with |- context [cout_put ?ops w4] =>
      destruct (cout_put_returns ops w4) as (w5 & -> & H5) end.
    exists w5. split; [reflexivity|].
    eauto using same_outside_cout_trans.
Qed.

(** Division of any [double] by the [double] of a zero count is an infinity
    or a NaN. *)
Lemma division_by_zero_count (x : float) :
  non_finite (x / double_of_size_t 0)%float = true.
Proof.
  unfold non_finite. rewrite div_spec.
  change (Prim2SF (double_of_size_t 0)) with (S754_zero false).
  destruct (Prim2SF x) as [s | s | | s m e]; reflexivity.
Qed.

(** ** Whole runs *)

Section Runs.

Variable json_parse : string -> string + json.
Variable solve_batch : Z -> list LP_Problem -> outcome (list LP_solution).
Variable solve : nat -> LP_Problem -> outcome LP_solution.

Lemma read_problems_world filename w :
  snd (read_problems_from_file json_parse filename w) = w.
Proof.
  unfold read_problems_from_file.
  destruct (ifstream_open filename w); [|reflexivity].
  now destruct (json_parse _).
Qed.

(** C4: when the batch file opens and parses to records of which one lacks
    [c], [A] or [b], the loader throws a parse error; [main] prints it on
    the error stream and exits with status 1; no backend was called, no
    artifact opened, no file changed and no report printed. *)
Theorem missing_mandatory_field_is_parse_error
    (argv : list string) (o : options) (elapsed_ms : Z) (w : world)
    (text : string) (records : list json) :
  parse_args (tail argv) default_options w = (Returned (Proceed o), w) ->
  ifstream_open (filename o) w = Some text ->
  json_parse text = inr (JArray records) ->
  Exists lacks_mandatory records ->
  exists msg,
    read_problems_from_file json_parse (filename o) w
      = (Thrown (json_exception msg), w) /\
    main json_parse solve_batch solve argv elapsed_ms w
      = (Exit 1, with_cerr ["错误: "; msg; nl] w) /\
    events (with_cerr ["错误: "; msg; nl] w) = events w /\
    files (with_cerr ["错误: "; msg; nl] w) = files w /\
    cout (with_cerr ["错误: "; msg; nl] w) = cout w.
Proof.
  intros Hargs Hopen Hparse Hlack.
  destruct (load_problems_lacking records [] Hlack) as [msg Hmsg].
  assert (Hread : read_problems_from_file json_parse (filename o) w
                  = (Thrown (json_exception msg), w)).
  { unfold read_problems_from_file. rewrite Hopen, Hparse.
    cbn [json_elements obind]. now rewrite Hmsg. }
  exists msg. split; [exact Hread|]. split; [|now cbn].
  unfold main. rewrite Hargs. unfold try_block, bind. now rewrite Hread.
Qed.

(** C6: when the input file cannot be opened, [main] prints the error on
    the error stream and exits with status 1; no artifact is opened (the
    event log is unchanged, so no backend is called either), no file is
    created or written and no report is printed. *)
Theorem unopenable_input_exits_nonzero
    (argv : list string) (o : options) (elapsed_ms : Z) (w : world) :
  parse_args (tail argv) default_options w = (Returned (Proceed o), w) ->
  ifstream_open (filename o) w = None ->
  exists w',
    main json_parse solve_batch solve argv elapsed_ms w = (Exit 1, w') /\
    cerr w' = (cerr w ++ [Str "错误: "; Str ("无法打开文件: " +:+ filename o); Str nl])%list /\
    files w' = files w /\
    events w' = events w /\
    cout w' = cout w.
Proof.
  intros Hargs Hopen.
  unfold main. rewrite Hargs.
  unfold try_block, bind, read_problems_from_file. rewrite Hopen.
  eexists. split; [reflexivity|]. now cbn.
Qed.

(** C7: when the output artifact of the mode cannot be opened for
    appending, the failed assertion ends the process: the mode returns no
    statistics, [main] returns no status, and apart from the backend calls
    already made and the failed opening nothing has happened (no file
    changed, no failure counted, no report or error printed). *)
Theorem unopenable_artifact_aborts
    (argv : list string) (o : options) (elapsed_ms : Z) (w : world)
    (problems : list LP_Problem) (results : list LP_solution) :
  parse_args (tail argv) default_options w = (Returned (Proceed o), w) ->
  read_problems_from_file json_parse (filename o) w = (Returned problems, w) ->
  backend_answers solve_batch solve (parallel_mode o) (thread_count o) problems
    = Returned results ->
  openable_for_append (artifact (parallel_mode o)) w = false ->
  exists w',
    dispatch solve_batch solve (parallel_mode o) problems (thread_count o)
             elapsed_ms w = (Aborted, w') /\
    main json_parse solve_batch solve argv elapsed_ms w = (Abort, w') /\
    events w' = (events w ++ calls_of (parallel_mode o) (thread_count o) problems
                 ++ [OpenAppend (artifact (parallel_mode o)) false])%list /\
    files w' = files w /\ cout w' = cout w /\ cerr w' = cerr w.
Proof.
  intros Hargs Hread Hb Ho.
  pose proof (dispatch_aborts _ _ _ _ _ elapsed_ms _ _ Hb Ho) as Hd.
  eexists. split; [exact Hd|]. split; [|now cbn].
  unfold main. rewrite Hargs. unfold try_block, bind. now rewrite Hread, Hd.
Qed.

(** C5: on an empty batch the statistics have [total_problems = 0], the
    average-time quotient is an infinity or a NaN, the report is rendered
    to its end and [main] exits with status 0; rendering returns for any
    statistics, mode and worker count (speedup quotient included). *)
Theorem empty_batch_report_completes
    (argv : list string) (o : options) (elapsed_ms : Z) (w : world)
    (results : list LP_solution) :
  parse_args (tail argv) default_options w = (Returned (Proceed o), w) ->
  read_problems_from_file json_parse (filename o) w = (Returned [], w) ->
  backend_answers solve_batch solve (parallel_mode o) (thread_count o) []
    = Returned results ->
  openable_for_append (artifact (parallel_mode o)) w = true ->
  (forall stats mode threads w0,
     exists w0', print_statistics stats mode threads w0 = (Returned tt, w0')) /\
  exists stats w1 w',
    dispatch solve_batch solve (parallel_mode o) [] (thread_count o) elapsed_ms w
      = (Returned stats, w1) /\
    total_problems stats = 0%N /\
    non_finite (wall_clock_time_ms stats
                / double_of_size_t (total_problems stats))%float = true /\
    print_statistics stats (parallel_mode o) (thread_count o) w1
      = (Returned tt, w') /\
    main json_parse solve_batch solve argv elapsed_ms w = (Exit 0, w').
Proof.
  intros Hargs Hread Hb Ho. split.
  { intros stats mode threads w0.
    destruct (print_statistics_returns stats mode threads w0) as (w0' & H & _).
    now exists w0'. }
  pose proof (dispatch_returns _ _ _ _ _ elapsed_ms _ _ Hb Ho) as Hd.
  set (stats := fold_left account results (stats_at_entry [] elapsed_ms)) in *.
  assert (Hn : total_problems stats = 0%N).
  { unfold stats. now destruct (fold_account_frame results (stats_at_entry [] elapsed_ms)) as [-> _]. }
  match type of Hd with _ = (_, ?w1) =>
    destruct (print_statistics_returns stats (parallel_mode o) (thread_count o) w1)
      as (w' & Hprint & _) end.
  eexists stats, _, w'. split; [exact Hd|]. split; [exact Hn|].
  split; [rewrite Hn; apply division_by_zero_count|].
  split; [exact Hprint|].
  unfold main. rewrite Hargs. unfold try_block, bind.
  now rewrite Hread, Hd, Hprint.
Qed.

End Runs.

(** The sample batch whose second record has no [c]. *)
Lemma missing_mandatory_field_is_parse_error_witness :
  exists msg,
    read_problems_from_file Sample.parse "problems.json" Sample.batch_without_c
      = (Thrown (json_exception msg), Sample.batch_without_c) /\
    main Sample.parse Sample.solve_batch Sample.solve ["lp"; "--threads"; "2"] 5
         Sample.batch_without_c
      = (Exit 1, with_cerr ["错误: "; msg; nl] Sample.batch_without_c) /\
    events (with_cerr ["错误: "; msg; nl] Sample.batch_without_c)
      = events Sample.batch_without_c /\
    files (with_cerr ["错误: "; msg; nl] Sample.batch_without_c)
      = files Sample.batch_without_c /\
    cout (with_cerr ["错误: "; msg; nl] Sample.batch_without_c)
      = cout Sample.batch_without_c.
Proof.
  apply (missing_mandatory_field_is_parse_error Sample.parse Sample.solve_batch
           Sample.solve ["lp"; "--threads"; "2"] (mkOptions true 2 "problems.json")
           5 Sample.batch_without_c "[feasible, no c]"
           [Sample.feasible_record; Sample.record_without_c]);
    [reflexivity | reflexivity | reflexivity |].
  apply Exists_cons_tl, Exists_cons_hd. left. reflexivity.
Defined.

(** No input file at all. *)
Lemma unopenable_input_exits_nonzero_witness :
  exists w',
    main Sample.parse Sample.solve_batch Sample.solve ["lp"; "--file"; "batch.json"] 5
         Sample.no_input = (Exit 1, w') /\
    cerr w' = [Str "错误: "; Str "无法打开文件: batch.json"; Str nl] /\
    files w' = files Sample.no_input /\
    events w' = events Sample.no_input /\
    cout w' = cout Sample.no_input.
Proof.
  apply (unopenable_input_exits_nonzero Sample.parse Sample.solve_batch
           Sample.solve ["lp"; "--file"; "batch.json"]
           (mkOptions true 4 "batch.json") 5 Sample.no_input); reflexivity.
Defined.

(** Both artifacts locked, serial mode. *)
Lemma unopenable_artifact_aborts_witness :
  exists w',
    dispatch Sample.solve_batch Sample.solve false Sample.problems 4 5
             Sample.locked_artifacts = (Aborted, w') /\
    main Sample.parse Sample.solve_batch Sample.solve ["lp"; "--serial"] 5
         Sample.locked_artifacts = (Abort, w') /\
    events w' = (map SingleCall Sample.problems
                 ++ [OpenAppend answer_serial false])%list /\
    files w' = files Sample.locked_artifacts /\
    cout w' = cout Sample.locked_artifacts /\
    cerr w' = cerr Sample.locked_artifacts.
Proof.
  apply (unopenable_artifact_aborts Sample.parse Sample.solve_batch Sample.solve
           ["lp"; "--serial"] (mkOptions false 4 "problems.json") 5
           Sample.locked_artifacts Sample.problems Sample.solutions);
    vm_compute; reflexivity.
Defined.

(** The empty batch in parallel mode, measured at 0 ms. *)
Lemma empty_batch_report_completes_witness :
  (forall stats mode threads w0,
     exists w0', print_statistics stats mode threads w0 = (Returned tt, w0')) /\
  exists stats w1 w',
    dispatch Sample.solve_batch Sample.solve true [] 4 0 Sample.empty_batch
      = (Returned stats, w1) /\
    total_problems stats = 0%N /\
    non_finite (wall_clock_time_ms stats
                / double_of_size_t (total_problems stats))%float = true /\
    print_statistics stats true 4 w1 = (Returned tt, w') /\
    main Sample.parse Sample.solve_batch Sample.solve ["lp"] 0 Sample.empty_batch
      = (Exit 0, w').
Proof.
  apply (empty_batch_report_completes Sample.parse Sample.solve_batch Sample.solve
           ["lp"] (mkOptions true 4 "problems.json") 0 Sample.empty_batch []);
    vm_compute; reflexivity.
Defined.

(** * Further properties of the harness *)

(** ** The two solving paths, continued *)

Lemma count_if_none {A : Type} (f : A -> bool) (l : list A) :
  Forall (fun a => f a = false) l -> count_if f l = 0%N.
Proof.
  induction 1 as [|a l Ha _ IH]; [reflexivity|].
  rewrite count_if_cons, Ha, IH. reflexivity.
Qed.

Lemma persisted_none (results : list LP_solution) :
  Forall (fun r => exitflag r <> 1) results -> persisted results = "".
Proof.
  induction 1 as [|r rs Hr _ IH]; [reflexivity|].
  unfold persisted in *. cbn [List.filter]. unfold succeeded at 1.
  apply Z.eqb_neq in Hr. now rewrite Hr.
Qed.

Lemma fold_account_count_total (results : list LP_solution) (st : SolverStatistics) :
  fits_size_t results -> success_count st = 0%N -> fail_count st = 0%N ->
  (success_count (fold_left account results st)
   + fail_count (fold_left account results st))%N = N.of_nat (length results).
Proof.
  intros Hfit Hs0 Hf0. unfold fits_size_t in Hfit.
  destruct (fold_account_counts results st) as [-> ->];
    [rewrite Hs0; reflexivity | rewrite Hf0; reflexivity |].
  rewrite Hs0, Hf0, !N.add_0_l.
  pose proof (count_if_partition succeeded results) as Hsum.
  pose proof (count_if_le succeeded results) as Hs.
  pose proof (count_if_le (fun r => negb (succeeded r)) results) as Hf.
  rewrite !N.mod_small; [exact Hsum | |]; eapply N.le_lt_trans; eassumption.
Qed.

Section PathsContinued.

Variable solve_batch : Z -> list LP_Problem -> outcome (list LP_solution).
Variable solve : nat -> LP_Problem -> outcome LP_solution.

(** When call number [length ps1] of the sequential backend is the first to
    throw, the loop has made the calls up to that one and no other. *)
Lemma solve_each_throws ps1 : forall p ps2 rs1 e acc w,
  solve_from solve (length acc) ps1 = Returned rs1 ->
  solve (length acc + length ps1) p = Thrown e ->
  solve_each solve (ps1 ++ p :: ps2) acc w
    = (Thrown e, with_events (map SingleCall (ps1 ++ [p])) w).
Proof.
  induction ps1 as [|q ps1 IH]; intros p ps2 rs1 e acc w Hret Hthrow.
  - cbn [app length] in *. rewrite Nat.add_0_r in Hthrow.
    cbn [solve_each]. unfold bind, log_event, lift. now rewrite Hthrow.
  - cbn [solve_from] in Hret.
    destruct (solve (length acc) q) as [r| |] eqn:Hq; cbn in Hret; try discriminate.
    destruct (solve_from solve (S (length acc)) ps1) as [rs| |] eqn:Hps;
      cbn in Hret; try discriminate.
    cbn [app solve_each]. unfold bind, log_event, lift. rewrite Hq.
    rewrite (IH p ps2 rs e).
    + rewrite with_events_app. reflexivity.
    + rewrite length_app, Nat.add_comm. exact Hps.
    + rewrite length_app. cbn [length] in *.
      replace (length acc + 1 + length ps1)%nat
        with (length acc + S (length ps1))%nat by lia.
      exact Hthrow.
Qed.

(** X1: when the backend of a mode answers, the mode has called the backend
    in one way only - the concurrent path once, with the requested worker
    count and the whole batch; the sequential path once per problem, in
    input order - and has tried to open its own artifact after the last
    call, and done nothing else that is logged. *)
Theorem backend_called_then_artifact_opened
    (mode : bool) (problems : list LP_Problem) (threads elapsed_ms : Z)
    (w : world) (results : list LP_solution) :
  backend_answers solve_batch solve mode threads problems = Returned results ->
  exists out w',
    dispatch solve_batch solve mode problems threads elapsed_ms w = (out, w') /\
    events w' =
      (events w
       ++ (if mode then [BatchCall threads problems] else map SingleCall problems)
       ++ [OpenAppend (if mode then "answer_parallel.txt" else "answer_serial.txt")
                      (openable_for_append (artifact mode) w)])%list.
Proof.
  intros Hb. destruct (openable_for_append (artifact mode) w) eqn:Ho.
  - rewrite (dispatch_returns _ _ _ _ _ _ _ _ Hb Ho).
    eexists _, _. split; [reflexivity|]. now destruct mode.
  - rewrite (dispatch_aborts _ _ _ _ _ _ _ _ Hb Ho).
    eexists _, _. split; [reflexivity|]. now destruct mode.
Qed.

(** X2: the two counters add up to the number of solutions the backend
    returned, while [total_problems] is the number of problems: when the
    backend returns fewer or more solutions than problems the run still
    returns, with counters that do not add up to [total_problems]. *)
Theorem counters_add_up_to_solution_count
    (mode : bool) (problems : list LP_Problem) (threads elapsed_ms : Z)
    (w : world) (results : list LP_solution) :
  fits_size_t results ->
  backend_answers solve_batch solve mode threads problems = Returned results ->
  openable_for_append (artifact mode) w = true ->
  exists stats w',
    dispatch solve_batch solve mode problems threads elapsed_ms w
      = (Returned stats, w') /\
    (success_count stats + fail_count stats)%N = N.of_nat (length results) /\
    total_problems stats = N.of_nat (length problems).
Proof.
  intros Hfit Hb Ho.
  rewrite (dispatch_returns _ _ _ _ _ _ _ _ Hb Ho).
  eexists _, _. split; [reflexivity|]. split.
  - now apply fold_account_count_total.
  - now destruct (fold_account_frame results (stats_at_entry problems elapsed_ms))
      as [-> _].
Qed.

(** X3: a run in which no solution has [exitflag == 1] (an empty batch
    included) writes no block, yet leaves its artifact behind: a missing
    artifact is created empty, an existing one keeps its content, and no
    other file changes. *)
Theorem unsolved_batch_still_creates_artifact
    (mode : bool) (problems : list LP_Problem) (threads elapsed_ms : Z)
    (w : world) (results : list LP_solution) :
  backend_answers solve_batch solve mode threads problems = Returned results ->
  openable_for_append (artifact mode) w = true ->
  Forall (fun r => exitflag r <> 1) results ->
  exists stats w',
    dispatch solve_batch solve mode problems threads elapsed_ms w
      = (Returned stats, w') /\
    files w' = <[artifact mode := default "" (files w !! artifact mode)]> (files w) /\
    success_count stats = 0%N.
Proof.
  intros Hb Ho Hnone.
  rewrite (dispatch_returns _ _ _ _ _ _ _ _ Hb Ho).
  eexists _, _. split; [reflexivity|]. split.
  - cbn [files set_files with_events]. rewrite (persisted_none _ Hnone).
    now rewrite append_nil_r.
  - destruct (fold_account_counts results (stats_at_entry problems elapsed_ms))
      as [-> _]; [reflexivity | reflexivity |].
    rewrite count_if_none; [reflexivity|].
    eapply Forall_impl; [exact Hnone|]. intros r Hr. now apply Z.eqb_neq.
Qed.


(** X15: a batch measured at 0 ms (it took less than a millisecond) has a
    speedup quotient [total_solve_time_ms / wall_clock_time_ms] that is an
    infinity or a NaN, whatever the solutions. *)
Theorem speedup_not_finite_when_wall_clock_zero
    (mode : bool) (problems : list LP_Problem) (threads : Z)
    (w : world) (results : list LP_solution) :
  backend_answers solve_batch solve mode threads problems = Returned results ->
  openable_for_append (artifact mode) w = true ->
  exists stats w',
    dispatch solve_batch solve mode problems threads 0 w = (Returned stats, w') /\
    non_finite (total_solve_time_ms stats / wall_clock_time_ms stats)%float = true.
Proof.
  intros Hb Ho.
  rewrite (dispatch_returns _ _ _ _ _ _ _ _ Hb Ho).
  eexists _, _. split; [reflexivity|].
  destruct (fold_account_frame results (stats_at_entry problems 0)) as [_ ->].
  apply division_by_zero_count.
Qed.

End PathsContinued.

(** ** The command line, continued *)

(** [std::stoi] returns an [int] or throws one of its two exceptions. *)
Lemma stoi_outcome (str : string) :
  (exists n, stoi str = Returned n /\ INT_MIN <= n <= INT_MAX) \/
  stoi str = Thrown (invalid_argument "stoi") \/
  stoi str = Thrown (out_of_range "stoi").
Proof.
  unfold stoi.
  match goal with |- context [let '(_, _) := ?X in _] => destruct X as [negative s] end.
  destruct (starts_with_digit s); [|right; left; reflexivity].
  match goal with |- context [if ?c then Returned ?v else _] =>
    destruct c eqn:Hrange; [left; exists v | right; right; reflexivity] end.
  split; [reflexivity|].
  apply andb_true_iff in Hrange as [Hlo Hhi].
  apply Z.leb_le in Hlo, Hhi. split; assumption.
Qed.

Ltac carry_cases IH :=
  let o' := fresh "o'" in
  let H := fresh "H" in
  let arg := fresh "arg" in
  let Hin := fresh "Hin" in
  let v := fresh "v" in
  let e := fresh "e" in
  let Hs := fresh "Hs" in
  destruct IH as [[o' H]|[H|[[arg [Hin H]]|[v [e [Hin [Hs H]]]]]]];
  [ left; exists o'; exact H
  | right; left; exact H
  | right; right; left; exists arg; split; [cbn [In]; tauto | exact H]
  | right; right; right; exists v, e;
    split; [cbn [In]; tauto | split; [exact Hs | exact H]] ].

(** The four ways the argument loop ends: all arguments accepted (nothing
    printed), [--help] met, an unknown argument met, or [std::stoi] threw on
    the value of a [--threads]. *)
Lemma parse_args_cases (args : list string) : forall o w,
  (exists o', parse_args args o w = (Returned (Proceed o'), w)) \/
  parse_args args o w = (Returned (Return_ 0), with_cout usage w) \/
  (exists arg, In arg args /\
     parse_args args o w
       = (Returned (Return_ 1), with_cout usage (with_cerr ["未知参数: "; arg; nl] w))) \/
  (exists v e, In v args /\ stoi v = Thrown e /\ parse_args args o w = (Thrown e, w)).
Proof.
  induction args as [| a | a b l IHl IHbl] using list_pair_ind; intros o w.
  - left. now eexists.
  - cbn [parse_args].
    destruct (String.eqb a "--parallel"); [left; now eexists|].
    destruct (String.eqb a "--serial"); [left; now eexists|].
    destruct (String.eqb a "--help").
    + right; left. apply help_branch.
    + right; right; left. exists a. split; [now left | apply unknown_branch].
  - cbn [parse_args].
    destruct (String.eqb a "--parallel"); [carry_cases (IHbl (mkOptions true (thread_count o) (filename o)) w)|].
    destruct (String.eqb a "--serial"); [carry_cases (IHbl (mkOptions false (thread_count o) (filename o)) w)|].
    destruct (String.eqb a "--threads").
    { unfold bind, lift.
      destruct (stoi_outcome b) as [[n [-> _]]|[Hb|Hb]].
      - carry_cases (IHl (mkOptions (parallel_mode o) n (filename o)) w).
      - rewrite Hb. right; right; right. eexists b, _.
        split; [cbn [In]; tauto | split; [exact Hb | reflexivity]].
      - rewrite Hb. right; right; right. eexists b, _.
        split; [cbn [In]; tauto | split; [exact Hb | reflexivity]]. }
    destruct (String.eqb a "--file");
      [carry_cases (IHl (mkOptions (parallel_mode o) (thread_count o) b) w)|].
    destruct (String.eqb a "--help").
    + right; left. apply help_branch.
    + right; right; left. exists a. split; [now left | apply unknown_branch].
Qed.

Lemma parse_args_thread_range (args : list string) : forall o0 o w w',
  INT_MIN <= thread_count o0 <= INT_MAX ->
  parse_args args o0 w = (Returned (Proceed o), w') ->
  INT_MIN <= thread_count o <= INT_MAX.
Proof.
  induction args as [| a | a b l IHl IHbl] using list_pair_ind; intros o0 o w w' H0 H.
  - cbn in H. now inversion H; subst.
  - cbn [parse_args] in H.
    destruct (String.eqb a "--parallel"); [cbn in H; now inversion H; subst|].
    destruct (String.eqb a "--serial"); [cbn in H; now inversion H; subst|].
    destruct (String.eqb a "--help").
    + rewrite help_branch in H. discriminate.
    + rewrite unknown_branch in H. discriminate.
  - cbn [parse_args] in H.
    destruct (String.eqb a "--parallel");
      [exact (IHbl (mkOptions true (thread_count o0) (filename o0)) o w w' H0 H)|].
    destruct (String.eqb a "--serial");
      [exact (IHbl (mkOptions false (thread_count o0) (filename o0)) o w w' H0 H)|].
    destruct (String.eqb a "--threads").
    { unfold bind, lift in H.
      destruct (stoi_outcome b) as [[n [Hn Hrange]]|[Hb|Hb]]; rewrite ?Hn, ?Hb in H;
        try discriminate.
      exact (IHl (mkOptions (parallel_mode o0) n (filename o0)) o w w' Hrange H). }
    destruct (String.eqb a "--file");
      [exact (IHl (mkOptions (parallel_mode o0) (thread_count o0) b) o w w' H0 H)|].
    destruct (String.eqb a "--help").
    + rewrite help_branch in H. discriminate.
    + rewrite unknown_branch in H. discriminate.
Qed.

(** X9: options are taken one after the other, each on top of what the
    earlier ones left: [--parallel] and [--serial] set the mode, [--file]
    takes the next argument as the file name whatever it looks like (even
    a flag), [--threads] takes the integer [std::stoi] reads from the next
    argument; each leaves the other two settings alone and the loop goes on
    behind it. *)
Theorem options_apply_in_order
    (pre rest : list string) (o : options) (w : world) :
  parse_args pre default_options w = (Returned (Proceed o), w) ->
  parse_args (pre ++ "--parallel" :: rest) default_options w
    = parse_args rest (mkOptions true (thread_count o) (filename o)) w /\
  parse_args (pre ++ "--serial" :: rest) default_options w
    = parse_args rest (mkOptions false (thread_count o) (filename o)) w /\
  (forall value,
     parse_args (pre ++ "--file" :: value :: rest) default_options w
       = parse_args rest (mkOptions (parallel_mode o) (thread_count o) value) w) /\
  (forall value n, stoi value = Returned n ->
     parse_args (pre ++ "--threads" :: value :: rest) default_options w
       = parse_args rest (mkOptions (parallel_mode o) n (filename o)) w).
Proof.
  intros Hpre.
  destruct (parse_args_prefix _ _ _ _ _ Hpre) as [_ Hrest].
  repeat split; intros; rewrite Hrest; try reflexivity.
  cbn [parse_args].
  change (String.eqb "--threads" "--parallel") with false.
  change (String.eqb "--threads" "--serial") with false.
  change (String.eqb "--threads" "--threads") with true.
  cbv iota. unfold bind, lift.
  match goal with Hs : stoi _ = Returned _ |- _ => now rewrite Hs end.
Qed.

Section CommandLineContinued.

Variable json_parse : string -> string + json.
Variable solve_batch : Z -> list LP_Problem -> outcome (list LP_solution).
Variable solve : nat -> LP_Problem -> outcome LP_solution.

(** X11: [--threads] or [--file] as the last argument, with no value behind
    it, is reported as an unknown argument: the name on the error stream,
    the usage text, exit status 1, and no run. *)
Theorem option_without_value_is_unknown
    (prog flag : string) (pre : list string) (o : options) (elapsed_ms : Z)
    (w : world) :
  parse_args pre default_options w = (Returned (Proceed o), w) ->
  flag = "--threads" \/ flag = "--file" ->
  main json_parse solve_batch solve (prog :: pre ++ [flag]) elapsed_ms w
    = (Exit 1, with_cout usage (with_cerr ["未知参数: "; flag; nl] w)).
Proof.
  intros Hpre Hflag.
  destruct (parse_args_prefix _ _ _ _ _ Hpre) as [_ Hrest].
  unfold main. cbn [tail]. rewrite Hrest.
  assert (Hunknown : parse_args [flag] o w
                     = (Returned (Return_ 1),
                        with_cout usage (with_cerr ["未知参数: "; flag; nl] w))).
  { destruct Hflag as [-> | ->]; apply unknown_branch. }
  now rewrite Hunknown.
Qed.

(** X12: whatever arguments the loop accepts, the worker count it ends with
    lies in the range of [int], from [-2^31] to [2^31 - 1]. *)
Theorem thread_count_is_any_int
    (args : list string) (o : options) (w w' : world) :
  parse_args args default_options w = (Returned (Proceed o), w') ->
  - 2 ^ 31 <= thread_count o <= 2 ^ 31 - 1.
Proof.
  intros H. eapply (parse_args_thread_range args default_options); [|exact H].
  cbn. unfold INT_MIN, INT_MAX. lia.
Qed.

(** X13: [main] returns 0 or 1 and no other status; the only exception that
    leaves [main] is the one [std::stoi] throws on the value of a
    [--threads] ([std::invalid_argument] or [std::out_of_range]), and then
    nothing has been printed, read or written. *)
Theorem exit_status_is_zero_or_one
    (argv : list string) (elapsed_ms : Z) (w : world) :
  match main json_parse solve_batch solve argv elapsed_ms w with
  | (Exit code, _) => code = 0 \/ code = 1
  | (Terminate e, w') =>
      w' = w /\
      (e = invalid_argument "stoi" \/ e = out_of_range "stoi") /\
      exists value, In value (tail argv) /\ stoi value = Thrown e
  | (Abort, _) => True
  end.
Proof.
  unfold main.
  destruct (parse_args_cases (tail argv) default_options w)
    as [[o' H]|[H|[[arg [Hin H]]|[v [e [Hin [Hs H]]]]]]]; rewrite H.
  - destruct (try_block json_parse solve_batch solve o' elapsed_ms w) as [[u|e|] w2];
      cbn; auto.
  - now left.
  - now right.
  - split; [reflexivity|]. split; [|now exists v].
    destruct (stoi_outcome v) as [[n [Hn _]]|[Hv|Hv]]; rewrite Hs in *;
      [discriminate | left | right]; congruence.
Qed.

End CommandLineContinued.

(** ** The loader, continued *)

Lemma load_problems_spec (records : list json) : forall acc out,
  load_problems records acc = Returned out <->
  exists ps, out = (acc ++ ps)%list /\
             Forall2 (fun r p => load_problem r = Returned p) records ps.
Proof.
  induction records as [|r records IH]; intros acc out; cbn [load_problems].
  - split.
    + intros H. inversion H. exists []. split; [now rewrite app_nil_r | constructor].
    + intros (ps & -> & HF). inversion HF. now rewrite app_nil_r.
  - split.
    + destruct (load_problem r) as [p| |] eqn:Hp; cbn [obind]; try discriminate.
      intros H. apply IH in H as (ps & -> & HF).
      exists (p :: ps). split; [now rewrite <- app_assoc | now constructor].
    + intros (ps & -> & HF). inversion HF as [|? p ? ps' Hp HF']; subst.
      rewrite Hp. cbn [obind]. apply IH. exists ps'.
      split; [now rewrite <- app_assoc | exact HF'].
Qed.

Section RunsContinued.

Variable json_parse : string -> string + json.
Variable solve_batch : Z -> list LP_Problem -> outcome (list LP_solution).
Variable solve : nat -> LP_Problem -> outcome LP_solution.

Lemma main_after_options argv o elapsed_ms w :
  parse_args (tail argv) default_options w = (Returned (Proceed o), w) ->
  main json_parse solve_batch solve argv elapsed_ms w =
    match try_block json_parse solve_batch solve o elapsed_ms w with
    | (Returned _, w2) => (Exit 0, w2)
    | (Thrown e, w2) => (Exit 1, with_cerr ["错误: "; what e; nl] w2)
    | (Aborted, w2) => (Abort, w2)
    end.
Proof. intros H. unfold main. rewrite H. now destruct (try_block _ _ _ _ _ _) as [[?|?|] ?]. Qed.

(** X17: a batch the loader returns has one problem per record of the file,
    in the order of the records, each the conversion of its record; and
    loading has changed nothing. *)
Theorem loaded_batch_follows_records
    (filename : string) (w w' : world) (problems : list LP_Problem) :
  read_problems_from_file json_parse filename w = (Returned problems, w') ->
  w' = w /\
  exists text j records,
    ifstream_open filename w = Some text /\
    json_parse text = inr j /\
    json_elements j = Returned records /\
    length problems = length records /\
    Forall2 (fun r p => load_problem r = Returned p) records problems.
Proof.
  unfold read_problems_from_file. intros H.
  destruct (ifstream_open filename w) as [text|]; [|discriminate].
  destruct (json_parse text) as [msg|j] eqn:Hj; [discriminate|].
  inversion H as [[Hload Hw]]. split; [reflexivity|].
  destruct (json_elements j) as [records| |] eqn:Hrec; cbn [obind] in Hload;
    try discriminate.
  apply load_problems_spec in Hload as (ps & -> & HF). cbn [app].
  exists text, j, records. repeat split; try assumption.
  symmetry. eapply Forall2_length. exact HF.
Qed.

(** X10: a record that loads without one of the optional keys gets that
    key's default: the empty sequence for [Aeq], [beq], [lb] and [ub],
    minimization for [ismaximization]. *)
Theorem optional_fields_default
    (members : list (string * json))
    (c : list float) (A : list (list float)) (b : list float)
    (Aeq : list (list float)) (beq lb ub : list float) (is_maximization : bool) :
  load_problem (JObject members)
    = Returned (c, A, b, Aeq, beq, lb, ub, is_maximization) ->
  (assoc "Aeq" members = None -> Aeq = []) /\
  (assoc "beq" members = None -> beq = []) /\
  (assoc "lb" members = None -> lb = []) /\
  (assoc "ub" members = None -> ub = []) /\
  (assoc "ismaximization" members = None -> is_maximization = false).
Proof.
  unfold load_problem. intros H.
  destruct (v <~ json_at (JObject members) "c" ;; get_vector v)%lp
    as [c'| |]; cbn [obind] in H; try discriminate.
  destruct (v <~ json_at (JObject members) "A" ;; get_matrix v)%lp
    as [A'| |]; cbn [obind] in H; try discriminate.
  destruct (v <~ json_at (JObject members) "b" ;; get_vector v)%lp
    as [b'| |]; cbn [obind] in H; try discriminate.
  destruct (json_value (JObject members) "Aeq" get_matrix []) as [x1| |] eqn:E1;
    cbn [obind] in H; try discriminate.
  destruct (json_value (JObject members) "beq" get_vector []) as [x2| |] eqn:E2;
    cbn [obind] in H; try discriminate.
  destruct (json_value (JObject members) "lb" get_vector []) as [x3| |] eqn:E3;
    cbn [obind] in H; try discriminate.
  destruct (json_value (JObject members) "ub" get_vector []) as [x4| |] eqn:E4;
    cbn [obind] in H; try discriminate.
  destruct (json_value (JObject members) "ismaximization" get_bool false)
    as [x5| |] eqn:E5; cbn [obind] in H; try discriminate.
  inversion H; subst. cbn [json_value] in E1, E2, E3, E4, E5.
  repeat split; intros Hnone;
    [ rewrite Hnone in E1 | rewrite Hnone in E2 | rewrite Hnone in E3
    | rewrite Hnone in E4 | rewrite Hnone in E5 ]; congruence.
Qed.

(** X7: when the batch file opens but its content is not well-formed, the
    parser's exception is caught in [main]: its message goes to the error
    stream, the status is 1, and nothing else has happened. *)
Theorem malformed_batch_exits_nonzero
    (argv : list string) (o : options) (elapsed_ms : Z) (w : world)
    (text msg : string) :
  parse_args (tail argv) default_options w = (Returned (Proceed o), w) ->
  ifstream_open (filename o) w = Some text ->
  json_parse text = inl msg ->
  main json_parse solve_batch solve argv elapsed_ms w
    = (Exit 1, with_cerr ["错误: "; msg; nl] w).
Proof.
  intros Hargs Hopen Hparse.
  rewrite (main_after_options _ _ _ _ Hargs).
  unfold try_block, bind, read_problems_from_file. now rewrite Hopen, Hparse.
Qed.

(** X5: when the concurrent backend throws, [main] catches the exception:
    its message goes to the error stream and the status is 1; the artifact
    was neither opened nor created and no report was printed. *)
Theorem batch_exception_is_reported
    (argv : list string) (o : options) (elapsed_ms : Z) (w : world)
    (problems : list LP_Problem) (e : exn) :
  parse_args (tail argv) default_options w = (Returned (Proceed o), w) ->
  parallel_mode o = true ->
  read_problems_from_file json_parse (filename o) w = (Returned problems, w) ->
  solve_batch (thread_count o) problems = Thrown e ->
  main json_parse solve_batch solve argv elapsed_ms w
    = (Exit 1, with_cerr ["错误: "; what e; nl]
                 (with_events [BatchCall (thread_count o) problems] w)).
Proof.
  intros Hargs Hmode Hread Hthrow.
  rewrite (main_after_options _ _ _ _ Hargs).
  unfold try_block, bind. rewrite Hread, Hmode. cbn [dispatch].
  unfold solve_parallel, bind, log_event, lift. now rewrite Hthrow.
Qed.

(** X6: when a call of the sequential backend throws, the batch ends there:
    the problems behind it are not solved, nothing is persisted - not even
    the blocks of the problems solved before it, since the artifact is not
    opened - and [main] prints the message and exits with status 1. *)
Theorem serial_exception_discards_solved
    (argv : list string) (o : options) (elapsed_ms : Z) (w : world)
    (ps1 ps2 : list LP_Problem) (p : LP_Problem) (rs1 : list LP_solution)
    (e : exn) :
  parse_args (tail argv) default_options w = (Returned (Proceed o), w) ->
  parallel_mode o = false ->
  read_problems_from_file json_parse (filename o) w
    = (Returned (ps1 ++ p :: ps2)%list, w) ->
  solve_from solve 0 ps1 = Returned rs1 ->
  solve (length ps1) p = Thrown e ->
  main json_parse solve_batch solve argv elapsed_ms w
    = (Exit 1, with_cerr ["错误: "; what e; nl]
                 (with_events (map SingleCall (ps1 ++ [p])) w)).
Proof.
  intros Hargs Hmode Hread Hsolved Hthrow.
  rewrite (main_after_options _ _ _ _ Hargs).
  unfold try_block, bind. rewrite Hread, Hmode. cbn [dispatch].
  unfold solve_serial, bind.
  now rewrite (solve_each_throws solve ps1 p ps2 rs1 e [] _ Hsolved Hthrow).
Qed.

(** X8: in serial mode the worker count plays no part: two command lines
    that both select serial mode and the same file give the same exit
    status, the same output and the same files, whatever [--threads] says
    in either. *)
Theorem serial_run_ignores_thread_count
    (argv1 argv2 : list string) (o1 o2 : options) (elapsed_ms : Z) (w : world) :
  parse_args (tail argv1) default_options w = (Returned (Proceed o1), w) ->
  parse_args (tail argv2) default_options w = (Returned (Proceed o2), w) ->
  parallel_mode o1 = false -> parallel_mode o2 = false ->
  filename o1 = filename o2 ->
  main json_parse solve_batch solve argv1 elapsed_ms w
    = main json_parse solve_batch solve argv2 elapsed_ms w.
Proof.
  intros H1 H2 Hm1 Hm2 Hf.
  rewrite (main_after_options _ _ _ _ H1), (main_after_options _ _ _ _ H2).
  destruct o1 as [m1 t1 f1], o2 as [m2 t2 f2]. cbn in Hm1, Hm2, Hf. subst.
  reflexivity.
Qed.

(** X16: a run whose arguments are accepted, whose batch loads, whose
    backend answers and whose artifact opens ends with status 0; it has
    printed nothing on the error stream, changed no file but its artifact,
    which grew by the blocks of the solved problems, and made exactly the
    backend calls of its mode before opening the artifact. *)
Theorem successful_run_exits_zero
    (argv : list string) (o : options) (elapsed_ms : Z) (w : world)
    (problems : list LP_Problem) (results : list LP_solution) :
  parse_args (tail argv) default_options w = (Returned (Proceed o), w) ->
  read_problems_from_file json_parse (filename o) w = (Returned problems, w) ->
  backend_answers solve_batch solve (parallel_mode o) (thread_count o) problems
    = Returned results ->
  openable_for_append (artifact (parallel_mode o)) w = true ->
  exists w',
    main json_parse solve_batch solve argv elapsed_ms w = (Exit 0, w') /\
    files w' = <[artifact (parallel_mode o) :=
                   default "" (files w !! artifact (parallel_mode o))
                   +:+ persisted results]> (files w) /\
    events w' = (events w ++ calls_of (parallel_mode o) (thread_count o) problems
                 ++ [OpenAppend (artifact (parallel_mode o)) true])%list /\
    cerr w' = cerr w.
Proof.
  intros Hargs Hread Hb Ho.
  rewrite (main_after_options _ _ _ _ Hargs).
  unfold try_block, bind. rewrite Hread.
  rewrite (dispatch_returns _ _ _ _ _ elapsed_ms _ _ Hb Ho).
  match goal with |- context [print_statistics ?st ?m ?t ?w1] =>
    destruct (print_statistics_returns st m t w1) as (w' & -> & Hf & _ & _ & He & Hc)
  end.
  exists w'. split; [reflexivity|]. cbn in Hf, He, Hc. now rewrite Hf, He, Hc.
Qed.

End RunsContinued.

(** ** The report, continued *)

Lemma doubles_of_app (l1 l2 : list item) :
  doubles_of (l1 ++ l2) = (doubles_of l1 ++ doubles_of l2)%list.
Proof.
  induction l1 as [|i l1 IH]; [reflexivity|].
  destruct i; cbn [app doubles_of]; now rewrite IH.
Qed.

(** X14: the report renders the three totals under the flags the stream
    came with.  In parallel mode it then switches the stream to fixed
    notation with precision 2 for the speedup and leaves it so: the average
    is rendered fixed with two digits as well, and the stream stays in that
    state.  In serial mode the average is rendered under the incoming flags
    and the flags are unchanged. *)
Theorem report_number_formats
    (stats : SolverStatistics) (is_parallel : bool) (threads : Z) (w : world) :
  exists w',
    print_statistics stats is_parallel threads w = (Returned tt, w') /\
    doubles_of (cout w') =
      (doubles_of (cout w)
       ++ [(cout_flags w, total_iterations stats);
           (cout_flags w, total_solve_time_ms stats);
           (cout_flags w, wall_clock_time_ms stats)]
       ++ (if is_parallel
           then [(mkFlags true 2,
                  (total_solve_time_ms stats / wall_clock_time_ms stats)%float);
                 (mkFlags true 2,
                  (wall_clock_time_ms stats
                   / double_of_size_t (total_problems stats))%float)]
           else [(cout_flags w,
                  (wall_clock_time_ms stats
                   / double_of_size_t (total_problems stats))%float)]))%list /\
    cout_flags w' = (if is_parallel then mkFlags true 2 else cout_flags w).
Proof.
  unfold print_statistics, bind, cout_put.
  destruct is_parallel; cbn [insert_all cout cout_flags fixed precision];
    (eexists; split; [reflexivity|]); cbn [cout cout_flags];
    (split; [|reflexivity]);
    rewrite !doubles_of_app; cbn [doubles_of app];
    rewrite ?app_nil_r, <- ?app_assoc; reflexivity.
Qed.

(** ** The further properties on the samples *)

(** The sequential path on the two sample problems. *)
Lemma backend_called_then_artifact_opened_witness :
  exists out w',
    dispatch Sample.solve_batch Sample.solve false Sample.problems 4 7
             Sample.two_problems = (out, w') /\
    events w' = (map SingleCall Sample.problems
                 ++ [OpenAppend "answer_serial.txt" true])%list.
Proof.
  apply (backend_called_then_artifact_opened Sample.solve_batch Sample.solve false
           Sample.problems 4 7 Sample.two_problems Sample.solutions).
  vm_compute; reflexivity.
Defined.

(** Two problems, no solution returned: the counters add up to 0, not 2. *)
Lemma counters_add_up_to_solution_count_witness :
  exists stats w',
    dispatch Sample.lossy_batch Sample.solve true Sample.problems 4 7
             Sample.two_problems = (Returned stats, w') /\
    (success_count stats + fail_count stats)%N = 0%N /\
    total_problems stats = 2%N.
Proof.
  apply (counters_add_up_to_solution_count Sample.lossy_batch Sample.solve true
           Sample.problems 4 7 Sample.two_problems []);
    vm_compute; reflexivity.
Defined.

(** Two unsolved problems and no artifact yet: it is created empty. *)
Lemma unsolved_batch_still_creates_artifact_witness :
  exists stats w',
    dispatch Faulty.unsolved_batch Sample.solve true Sample.problems 4 7
             Sample.empty_batch = (Returned stats, w') /\
    files w' = <[answer_parallel := ""]> (files Sample.empty_batch) /\
    success_count stats = 0%N.
Proof.
  apply (unsolved_batch_still_creates_artifact Faulty.unsolved_batch Sample.solve
           true Sample.problems 4 7 Sample.empty_batch Faulty.unsolved);
    [vm_compute; reflexivity | vm_compute; reflexivity |].
  repeat (constructor; [cbn; lia|]). constructor.
Defined.


(** The sample batch measured at 0 ms. *)
Lemma speedup_not_finite_when_wall_clock_zero_witness :
  exists stats w',
    dispatch Sample.solve_batch Sample.solve true Sample.problems 4 0
             Sample.two_problems = (Returned stats, w') /\
    non_finite (total_solve_time_ms stats / wall_clock_time_ms stats)%float = true.
Proof.
  apply (speedup_not_finite_when_wall_clock_zero Sample.solve_batch Sample.solve
           true Sample.problems 4 Sample.two_problems Sample.solutions);
    vm_compute; reflexivity.
Defined.

(** Options behind [--serial]. *)
Lemma options_apply_in_order_witness :
  parse_args ["--serial"; "--parallel"] default_options Sample.two_problems
    = (Returned (Proceed (mkOptions true 4 "problems.json")), Sample.two_problems) /\
  parse_args ["--serial"; "--serial"] default_options Sample.two_problems
    = (Returned (Proceed (mkOptions false 4 "problems.json")), Sample.two_problems) /\
  (forall value,
     parse_args ["--serial"; "--file"; value] default_options Sample.two_problems
       = (Returned (Proceed (mkOptions false 4 value)), Sample.two_problems)) /\
  (forall value n, stoi value = Returned n ->
     parse_args ["--serial"; "--threads"; value] default_options Sample.two_problems
       = (Returned (Proceed (mkOptions false n "problems.json")), Sample.two_problems)).
Proof.
  apply (options_apply_in_order ["--serial"] [] (mkOptions false 4 "problems.json")
           Sample.two_problems).
  reflexivity.
Defined.

(** [--serial --threads] with nothing behind. *)
Lemma option_without_value_is_unknown_witness :
  main Sample.parse Sample.solve_batch Sample.solve ["lp"; "--serial"; "--threads"] 0
       Sample.two_problems
    = (Exit 1, with_cout usage
                 (with_cerr ["未知参数: "; "--threads"; nl] Sample.two_problems)).
Proof.
  apply (option_without_value_is_unknown Sample.parse Sample.solve_batch Sample.solve
           "lp" "--threads" ["--serial"] (mkOptions false 4 "problems.json") 0
           Sample.two_problems); [reflexivity | now left].
Defined.

(** [--threads -3] is accepted. *)
Lemma thread_count_is_any_int_witness :
  - 2 ^ 31 <= thread_count (mkOptions true (-3) "problems.json") <= 2 ^ 31 - 1.
Proof.
  apply (thread_count_is_any_int ["--threads"; "-3"]
           (mkOptions true (-3) "problems.json") Sample.two_problems
           Sample.two_problems).
  reflexivity.
Defined.

(** The two sample records. *)
Lemma loaded_batch_follows_records_witness :
  Sample.two_problems = Sample.two_problems /\
  exists text j records,
    ifstream_open "problems.json" Sample.two_problems = Some text /\
    Sample.parse text = inr j /\
    json_elements j = Returned records /\
    length Sample.problems = length records /\
    Forall2 (fun r p => load_problem r = Returned p) records Sample.problems.
Proof.
  apply (loaded_batch_follows_records Sample.parse "problems.json"
           Sample.two_problems Sample.two_problems Sample.problems).
  vm_compute; reflexivity.
Defined.

(** The record with [c], [A] and [b] only. *)
Lemma optional_fields_default_witness :
  (assoc "Aeq" [("c", JArray [JNumber 1; JNumber 1]);
                ("A", JArray [JArray [JNumber 1; JNumber 1]]);
                ("b", JArray [JNumber 2])] = None -> @nil (list float) = []) /\
  (assoc "beq" [("c", JArray [JNumber 1; JNumber 1]);
                ("A", JArray [JArray [JNumber 1; JNumber 1]]);
                ("b", JArray [JNumber 2])] = None -> @nil float = []) /\
  (assoc "lb" [("c", JArray [JNumber 1; JNumber 1]);
               ("A", JArray [JArray [JNumber 1; JNumber 1]]);
               ("b", JArray [JNumber 2])] = None -> @nil float = []) /\
  (assoc "ub" [("c", JArray [JNumber 1; JNumber 1]);
               ("A", JArray [JArray [JNumber 1; JNumber 1]]);
               ("b", JArray [JNumber 2])] = None -> @nil float = []) /\
  (assoc "ismaximization" [("c", JArray [JNumber 1; JNumber 1]);
                           ("A", JArray [JArray [JNumber 1; JNumber 1]]);
                           ("b", JArray [JNumber 2])] = None -> false = false).
Proof.
  apply (optional_fields_default
           [("c", JArray [JNumber 1; JNumber 1]);
            ("A", JArray [JArray [JNumber 1; JNumber 1]]);
            ("b", JArray [JNumber 2])]
           [1; 1]%float [[1; 1]%float] [2%float] [] [] [] [] false).
  reflexivity.
Defined.

(** A batch file holding an opening brace only. *)
Lemma malformed_batch_exits_nonzero_witness :
  main Sample.parse Sample.solve_batch Sample.solve ["lp"] 0 Faulty.malformed
    = (Exit 1, with_cerr ["错误: "; "syntax error"; nl] Faulty.malformed).
Proof.
  apply (malformed_batch_exits_nonzero Sample.parse Sample.solve_batch Sample.solve
           ["lp"] (mkOptions true 4 "problems.json") 0 Faulty.malformed "{"
           "syntax error"); vm_compute; reflexivity.
Defined.

(** The concurrent backend throws on the sample batch. *)
Lemma batch_exception_is_reported_witness :
  main Sample.parse Faulty.throwing_batch Sample.solve ["lp"] 0 Sample.two_problems
    = (Exit 1, with_cerr ["错误: "; "solver failed"; nl]
                 (with_events [BatchCall 4 Sample.problems] Sample.two_problems)).
Proof.
  apply (batch_exception_is_reported Sample.parse Faulty.throwing_batch Sample.solve
           ["lp"] (mkOptions true 4 "problems.json") 0 Sample.two_problems
           Sample.problems (backend_exception "solver failed"));
    vm_compute; reflexivity.
Defined.

(** The sequential backend solves the first sample problem and throws on
    the second: the solved one is not persisted. *)
Lemma serial_exception_discards_solved_witness :
  main Sample.parse Sample.solve_batch Faulty.solve_then_throw ["lp"; "--serial"] 0
       Sample.two_problems
    = (Exit 1, with_cerr ["错误: "; "solver failed"; nl]
                 (with_events (map SingleCall Sample.problems) Sample.two_problems)).
Proof.
  apply (serial_exception_discards_solved Sample.parse Sample.solve_batch
           Faulty.solve_then_throw ["lp"; "--serial"]
           (mkOptions false 4 "problems.json") 0 Sample.two_problems
           [([1; 1]%float, [[1; 1]%float], [2%float], [], [], [], [], false)]
           []
           ([1; 1]%float, [[1; 1]%float], [2%float], [], [], [], [], true)
           [mkSolution 1 3 1.5 ("x = [0, 0]" +:+ nl)]
           (backend_exception "solver failed"));
    vm_compute; reflexivity.
Defined.

(** [--serial] alone and [--threads 16 --serial]. *)
Lemma serial_run_ignores_thread_count_witness :
  main Sample.parse Sample.solve_batch Sample.solve ["lp"; "--serial"] 7
       Sample.two_problems
  = main Sample.parse Sample.solve_batch Sample.solve
         ["lp"; "--threads"; "16"; "--serial"] 7 Sample.two_problems.
Proof.
  apply (serial_run_ignores_thread_count Sample.parse Sample.solve_batch Sample.solve
           ["lp"; "--serial"] ["lp"; "--threads"; "16"; "--serial"]
           (mkOptions false 4 "problems.json") (mkOptions false 16 "problems.json")
           7 Sample.two_problems); reflexivity.
Defined.

(** The sample batch in parallel mode. *)
Lemma successful_run_exits_zero_witness :
  exists w',
    main Sample.parse Sample.solve_batch Sample.solve ["lp"] 7 Sample.two_problems
      = (Exit 0, w') /\
    files w' = <[answer_parallel :=
                   ("earlier run" +:+ nl) +:+ persisted Sample.solutions]>
                 (files Sample.two_problems) /\
    events w' = [BatchCall 4 Sample.problems; OpenAppend answer_parallel true] /\
    cerr w' = [].
Proof.
  apply (successful_run_exits_zero Sample.parse Sample.solve_batch Sample.solve
           ["lp"] (mkOptions true 4 "problems.json") 7 Sample.two_problems
           Sample.problems Sample.solutions); vm_compute; reflexivity.
Defined.
